(** * shoppingAI gateway: the Next.js API routes and the streaming client

    A shallow embedding of
    - [frontend/pages/api/generate-content-stream.js] (the stream relay),
    - the streaming page's [handleSubmit] (the client-side frame decoder),
    - [frontend/pages/api/perplexity-search.js] (the endpoint fallback),
    - [frontend/pages/api/proxy-image.js] (the asset proxy) and the
      address the image-generation route builds for it,
    together with the properties the design document states about them.

    Conventions.  A JavaScript string is a [string]: one [ascii] per code
    unit, so the model covers text whose code units are below 256.  The
    HTTP collaborators ([fetch], the response object [res], the clock) are
    explicit arguments and results: a handler is a function from the
    request and the behaviour of the upstream to the response it builds
    and the list of upstream calls it made.  An exception that leaves a
    handler is recorded in the response ([threw]); what the client is
    sent in that case is up to the framework. *)

From Stdlib Require Import String Ascii List Bool Arith ZArith NArith Lia.
From Stdlib Require Import DecimalString DecimalN DecimalZ.
Import ListNotations.
Open Scope string_scope.

(* ================================================================== *)
(** * JavaScript strings *)
(* ================================================================== *)

Module Js.

(** The line feed ['\n'] and the double quote, which the string
    notation cannot spell. *)
Definition LF : string := String (ascii_of_nat 10) "".
Definition DQ : string := String (ascii_of_nat 34) "".

(** [s.startsWith(p)] *)
Fixpoint startsWith (s p : string) {struct p} : bool :=
  match p with
  | "" => true
  | String a p' =>
      match s with
      | "" => false
      | String b s' => Ascii.eqb a b && startsWith s' p'
      end
  end.

(** [s.slice(n)] and [s.substring(n)] for a constant [n >= 0]: the text
    from index [n] on, empty when [n] is past the end. *)
Fixpoint slice (n : nat) (s : string) : string :=
  match n, s with
  | O, _ => s
  | S _, "" => ""
  | S k, String _ s' => slice k s'
  end.

(** ECMAScript white space and line terminators among the code units
    below 256: TAB, LF, VT, FF, CR, SP and NBSP. *)
Definition is_ws (c : ascii) : bool :=
  let n := nat_of_ascii c in
  ((9 <=? n)%nat && (n <=? 13)%nat) || (n =? 32)%nat || (n =? 160)%nat.

Fixpoint trimStart (s : string) : string :=
  match s with
  | "" => ""
  | String c s' => if is_ws c then trimStart s' else s
  end.

Fixpoint trimEnd (s : string) : string :=
  match s with
  | "" => ""
  | String c s' =>
      match trimEnd s' with
      | "" => if is_ws c then "" else String c ""
      | t => String c t
      end
  end.

(** [s.trim()] *)
Definition trim (s : string) : string := trimEnd (trimStart s).

(** The first occurrence of [sep] in [s], as [s.indexOf(sep)] finds it:
    the text before it and the text after it. *)
Fixpoint find_sep (sep s : string) : option (string * string) :=
  match s with
  | "" => if startsWith "" sep then Some ("", "") else None
  | String c s' =>
      if startsWith s sep then Some ("", slice (String.length sep) s)
      else match find_sep sep s' with
           | Some (a, b) => Some (String c a, b)
           | None => None
           end
  end.

(** The pieces of [s] between successive, non-overlapping occurrences of
    [sep], scanning from the left; [fuel] bounds the number of
    separators consumed. *)
Fixpoint split_from (fuel : nat) (sep s : string) : list string :=
  match find_sep sep s with
  | Some (piece, rest) =>
      match fuel with
      | S f => piece :: split_from f sep rest
      | O => [s]
      end
  | None => [s]
  end.

Fixpoint chars (s : string) : list string :=
  match s with
  | "" => []
  | String c s' => String c "" :: chars s'
  end.

(** [s.split(sep)]: with the empty separator the code units of [s], else
    the pieces between the occurrences of [sep] (always at least one
    piece).  Every separator consumes at least one code unit, so
    [length s] is fuel enough. *)
Definition split (sep s : string) : list string :=
  match sep with
  | "" => chars s
  | _ => split_from (String.length s) sep s
  end.

(** [arr.pop()] on the result of a [split], as a pair: the element
    removed ([undefined] never occurs here, the array is not empty; the
    source's [|| ''] maps the empty string to itself) and the array that
    is left. *)
Definition pop (arr : list string) : string * list string :=
  (last arr "", removelast arr).

(** Template-literal printing of an integer: decimal digits, a leading
    minus sign for negatives. *)
Definition show_Z (z : Z) : string := NilEmpty.string_of_int (Z.to_int z).
Definition show_N (n : N) : string := NilEmpty.string_of_uint (N.to_uint n).

(** [hay.includes(needle)] *)
Fixpoint includes (hay needle : string) : bool :=
  match hay with
  | "" => startsWith "" needle
  | String _ hay' => startsWith hay needle || includes hay' needle
  end.

(** [a.join('')] *)
Definition concat_all (l : list string) : string :=
  fold_right append "" l.

End Js.

(* ================================================================== *)
(** * JSON values and [JSON.stringify] *)
(* ================================================================== *)

Module Json.
Import Js.

#[local] Set Warnings "-register-all".
Inductive t : Type :=
| Null
| Bool (b : bool)
| Num (z : Z)
| Str (s : string)
| Arr (items : list t)
| Obj (fields : list (string * t)).
#[local] Set Warnings "register-all".

(** A value read from an object: [None] is [undefined]. *)
Definition value := option t.

(** [Boolean(v)], the test behind [!v], [v || d] and [filter(Boolean)].
    Numbers are the integral JSON numbers; a non-integral number is
    truthy like a non-zero integer. *)
Definition truthy (v : value) : bool :=
  match v with
  | None => false
  | Some Null => false
  | Some (Bool b) => b
  | Some (Num z) => negb (z =? 0)%Z
  | Some (Str s) => negb (s =? "")
  | Some (Arr _) => true
  | Some (Obj _) => true
  end.

Definition hex_digit (n : nat) : string :=
  String (ascii_of_nat (if (n <? 10)%nat then 48 + n else 87 + n)) "".

(** One code unit inside a JSON string literal (QuoteJSONString). *)
Definition escape_char (c : ascii) : string :=
  let n := nat_of_ascii c in
  if (n =? 34)%nat then "\" ++ DQ
  else if (n =? 92)%nat then "\\"
  else if (n =? 8)%nat then "\b"
  else if (n =? 12)%nat then "\f"
  else if (n =? 10)%nat then "\n"
  else if (n =? 13)%nat then "\r"
  else if (n =? 9)%nat then "\t"
  else if (n <? 32)%nat then "\u00" ++ hex_digit (n / 16) ++ hex_digit (n mod 16)
  else String c "".

Fixpoint escape (s : string) : string :=
  match s with
  | "" => ""
  | String c s' => escape_char c ++ escape s'
  end.

Definition quote (s : string) : string := DQ ++ escape s ++ DQ.

(** [JSON.stringify(j)] without indentation. *)
Fixpoint stringify (j : t) : string :=
  match j with
  | Null => "null"
  | Bool true => "true"
  | Bool false => "false"
  | Num z => show_Z z
  | Str s => quote s
  | Arr items =>
      "[" ++
      (fix go (l : list t) : string :=
         match l with
         | [] => ""
         | x :: r =>
             stringify x ++ match r with [] => "" | _ => "," ++ go r end
         end) items
      ++ "]"
  | Obj fields =>
      "{" ++
      (fix go (l : list (string * t)) : string :=
         match l with
         | [] => ""
         | (k, x) :: r =>
             quote k ++ ":" ++ stringify x
             ++ match r with [] => "" | _ => "," ++ go r end
         end) fields
      ++ "}"
  end.

(** [v.k], and what the pattern [const { k } = v] binds: the field of
    an object (whose field names are distinct), [undefined] on a value
    that has no such field -- for the names the routes read, none of
    which is a property of strings or arrays.  On [null] and
    [undefined] the read throws; see [readable]. *)
Fixpoint member_of (k : string) (l : list (string * t)) : value :=
  match l with
  | [] => None
  | (k', x) :: r => if (k' =? k)%string then Some x else member_of k r
  end.

Definition member (k : string) (v : value) : value :=
  match v with
  | Some (Obj fields) => member_of k fields
  | _ => None
  end.

(** Whether fields can be read from [v] at all: reading a field of
    [null] or [undefined] throws a [TypeError]. *)
Definition readable (v : value) : bool :=
  match v with
  | None => false
  | Some Null => false
  | Some _ => true
  end.

(** The fields an object literal [{k1: v1, ...}] keeps when it is
    serialised: a field whose value is [undefined] is left out. *)
Fixpoint obj_of (l : list (string * value)) : list (string * t) :=
  match l with
  | [] => []
  | (k, Some x) :: r => (k, x) :: obj_of r
  | (_, None) :: r => obj_of r
  end.

End Json.

(* ================================================================== *)
(** * The response object [res] of an API route *)
(* ================================================================== *)

Module Http.

(** What has been handed to the socket: text written by [res.write] or
    [res.json], or the bytes of a [Buffer] passed to [res.send]. *)
Inductive Part : Type :=
| Text (s : string)
| Bytes (b : list Byte.byte).

Record Res : Type := mkRes {
  statusCode : Z;
  headers : list (string * string);
  body : list Part;          (* in the order written *)
  finished : bool;           (* [res.end()] has been called *)
  threw : bool               (* an exception has left the handler *)
}.

(** A fresh response: status 200 until [res.status] says otherwise. *)
Definition fresh : Res :=
  {| statusCode := 200; headers := []; body := []; finished := false;
     threw := false |}.

Fixpoint set_assoc (k v : string) (l : list (string * string))
  : list (string * string) :=
  match l with
  | [] => [(k, v)]
  | (k', v') :: r =>
      if (k' =? k)%string then (k, v) :: r else (k', v') :: set_assoc k v r
  end.

Fixpoint get_assoc (k : string) (l : list (string * string))
  : option string :=
  match l with
  | [] => None
  | (k', v) :: r => if (k' =? k)%string then Some v else get_assoc k r
  end.

(** [res.setHeader(k, v)]: a header set twice keeps the last value. *)
Definition setHeader (k v : string) (r : Res) : Res :=
  {| statusCode := statusCode r; headers := set_assoc k v (headers r);
     body := body r; finished := finished r; threw := threw r |}.

Definition getHeader (k : string) (r : Res) : option string :=
  get_assoc k (headers r).

(** [res.status(n)] *)
Definition status (n : Z) (r : Res) : Res :=
  {| statusCode := n; headers := headers r;
     body := body r; finished := finished r; threw := threw r |}.

(** [res.write(s)] *)
Definition write (s : string) (r : Res) : Res :=
  {| statusCode := statusCode r; headers := headers r;
     body := body r ++ [Text s]; finished := finished r;
     threw := threw r |}.

(** [res.end()] *)
Definition end_ (r : Res) : Res :=
  {| statusCode := statusCode r; headers := headers r;
     body := body r; finished := true; threw := threw r |}.

(** An exception that nothing in the handler catches: the handler stops
    where it is, with what it has set and written so far and without
    ending the response.  The answer the client then gets is the
    framework's own (an HTTP 500), not the handler's. *)
Definition throw (r : Res) : Res :=
  {| statusCode := statusCode r; headers := headers r;
     body := body r; finished := finished r; threw := true |}.

Fixpoint remove_assoc (k : string) (l : list (string * string))
  : list (string * string) :=
  match l with
  | [] => []
  | (k', v') :: r =>
      if (k' =? k)%string then remove_assoc k r
      else (k', v') :: remove_assoc k r
  end.

(** [res.removeHeader(k)] *)
Definition removeHeader (k : string) (r : Res) : Res :=
  {| statusCode := statusCode r; headers := remove_assoc k (headers r);
     body := body r; finished := finished r; threw := threw r |}.

(** A status that carries no body: 204 and 304. *)
Definition bodiless (st : Z) : bool := ((st =? 204) || (st =? 304))%Z.

(** [res.json(j)], for a request without [If-None-Match]: the
    framework labels the body as JSON, sends the serialised value and
    ends the response.  At status 204 or 304 it sends no body: it takes
    the [Content-Type] off again and only ends the response. *)
Definition json (j : Json.t) (r : Res) : Res :=
  let r' := setHeader "Content-Type" "application/json; charset=utf-8" r in
  if bodiless (statusCode r') then end_ (removeHeader "Content-Type" r')
  else end_ (write (Json.stringify j) r').

(** [res.send(Buffer.from(data))]: the bytes, then the end; a
    [Content-Type] already set is kept. *)
Definition send (data : list Byte.byte) (r : Res) : Res :=
  {| statusCode := statusCode r; headers := headers r;
     body := body r ++ [Bytes data]; finished := true;
     threw := threw r |}.

(** [res.flush?.()] pushes what was written; the record does not change. *)
Definition flush (r : Res) : Res := r.

(** [response.ok] of a fetch response: a status in 200..299. *)
Definition ok (st : Z) : bool := ((200 <=? st) && (st <=? 299))%Z.

(** [x || fallback] for a string [x] that may be missing:
    [process.env.X || fallback], [contentType || 'image/png']. *)
Definition or_default (x : option string) (fallback : string) : string :=
  match x with
  | Some s => if (s =? "")%string then fallback else s
  | None => fallback
  end.

(** The text chunks written with [res.write], in order. *)
Fixpoint texts (l : list Part) : list string :=
  match l with
  | [] => []
  | Text s :: r => s :: texts r
  | Bytes _ :: r => texts r
  end.

End Http.

(* ================================================================== *)
(** * The stream relay: [pages/api/generate-content-stream.js] *)
(* ================================================================== *)

Module StreamRelay.
Import Js Http.

(** The request, as the handler reads it: [req.method] and the parsed
    body [req.body], which is whatever JSON value the client sent: an
    object as a rule, but also [null] (the body text [null]). *)
Record Request : Type := {
  method : string;
  req_body : Json.value
}.

(** Line 17, [const { topic, audience } = req.body]: what the two names
    are bound to when the body can be read. *)
Definition topic (req : Request) : Json.value :=
  Json.member "topic" (req_body req).

Definition audience (req : Request) : Json.value :=
  Json.member "audience" (req_body req).

(** The arguments of the one [fetch] call. *)
Record FetchReq : Type := {
  url : string;
  fetch_method : string;
  fetch_headers : list (string * string);
  fetch_body : string
}.

(** How the upstream body ends: [reader.read()] resolves with
    [done: true], or it rejects. *)
Inductive ReadEnd : Type := Done | ReadFails.

(** The upstream body as the reader delivers it: the text of each read
    ([decoder.decode(value, {stream: true})]), then the end. *)
Record Stream : Type := {
  chunks : list string;
  ending : ReadEnd
}.

(** What the [fetch] call does: it rejects, or it resolves with a
    response of some status.  [text] is what [response.text()] gives
    ([None] when it rejects), [stream] is [response.body] ([None] when
    the response has no body to read). *)
Inductive FetchResult : Type :=
| Rejected
| Response (st : Z) (text : option string) (stream : option Stream).

(** [`data: ${JSON.stringify(j)}\n\n`] *)
Definition frame (j : Json.t) : string :=
  "data: " ++ Json.stringify j ++ LF ++ LF.

Definition error_frame (msg : string) : string :=
  frame (Json.Obj [("error", Json.Str msg)]).

Definition finished_frame : string :=
  frame (Json.Obj [("finished", Json.Bool true)]).

(** Line 66: the non-blank lines of one chunk. *)
Definition lines_of (chunk : string) : list string :=
  filter (fun line => negb (trim line =? "")%string) (split LF chunk).

(** Lines 68-73: every line that starts with the event prefix is written
    again as a frame of its own. *)
Definition forward_lines (lines : list string) (res : Res) : Res :=
  fold_left
    (fun r line =>
       if startsWith line "data: "
       then write ("data: " ++ slice 6 line ++ LF ++ LF) r
       else r)
    lines res.

(** Lines 55-77 and the inner [catch] of lines 78-82. *)
Fixpoint read_loop (cs : list string) (e : ReadEnd) (res : Res) : Res :=
  match cs with
  | [] =>
      match e with
      | Done => end_ (write finished_frame res)
      | ReadFails => end_ (write (error_frame "Stream processing error") res)
      end
  | chunk :: cs' =>
      read_loop cs' e (flush (forward_lines (lines_of chunk) res))
  end.

(** Lines 13-15: the response once the streaming headers are set. *)
Definition stream_res : Res :=
  setHeader "Connection" "keep-alive"
    (setHeader "Cache-Control" "no-cache"
       (setHeader "Content-Type" "text/event-stream" fresh)).

Section Handler.
(** [process.env.BACKEND_API_URL] and the behaviour of [fetch]. *)
Variable BACKEND_API_URL : option string.
Variable fetch : FetchReq -> FetchResult.

Definition apiUrl : string :=
  or_default BACKEND_API_URL "http://backend:8000"
  ++ "/api/content/generate/stream".

Definition backend_call (req : Request) : FetchReq :=
  {| url := apiUrl;
     fetch_method := "POST";
     fetch_headers := [("Content-Type", "application/json");
                       ("Accept", "text/event-stream")];
     fetch_body :=
       Json.stringify
         (Json.Obj (Json.obj_of [("topic", topic req);
                                 ("audience", audience req)])) |}.

(** The outer [catch] of lines 83-87. *)
Definition connect_failed (res : Res) : Res :=
  end_ (write (error_frame "Failed to connect to backend") res).

(** The handler: the response it builds and the upstream calls made. *)
Definition handler (req : Request) : Res * list FetchReq :=
  if negb (method req =? "POST")%string then
    (json (Json.Obj [("error", Json.Str "Method not allowed")])
          (status 405 fresh), [])
  else
    let res := stream_res in
    (* line 17 stands before the [try] of line 25: on a body that is
       [null] or [undefined] the [TypeError] leaves the handler *)
    if negb (Json.readable (req_body req)) then (throw res, [])
    else
    if negb (Json.truthy (topic req)) || negb (Json.truthy (audience req))
    then (end_ (write (error_frame "Missing required fields") res), [])
    else
      let call := backend_call req in
      match fetch call with
      | Rejected => (connect_failed res, [call])
      | Response st text stream =>
          if negb (ok st) then
            match text with
            | Some _ =>
                (end_ (write (error_frame ("API error: " ++ show_Z st)) res),
                 [call])
            | None => (connect_failed res, [call])
            end
          else
            match stream with
            | Some s => (read_loop (chunks s) (ending s) res, [call])
            | None => (connect_failed res, [call])
            end
      end.
End Handler.

(** The frame carrying payload text [p] on the wire. *)
Definition wire (p : string) : string := "data: " ++ p ++ LF ++ LF.

(** The frames [forward_lines] writes for a list of lines, and the
    frames the read loop forwards for a list of chunks. *)
Definition forwarded (lines : list string) : list string :=
  flat_map
    (fun line =>
       if startsWith line "data: " then [wire (slice 6 line)] else [])
    lines.

Definition relayed (cs : list string) : list string :=
  flat_map (fun chunk => forwarded (lines_of chunk)) cs.

(** The frame that closes the client stream. *)
Definition closing_frame (e : ReadEnd) : string :=
  match e with
  | Done => finished_frame
  | ReadFails => error_frame "Stream processing error"
  end.

(** A request with both fields present. *)
Definition complete (req : Request) : bool :=
  Json.truthy (topic req) && Json.truthy (audience req).

End StreamRelay.


(* ================================================================== *)
(** * The streaming page: [handleSubmit], the client-side decoder *)
(* ================================================================== *)

Module StreamClient.
Import Js.

(** The component state the read loop touches. *)
Record Ui : Type := mkUi {
  content : string;
  imagePrompts : Json.t;
  error : Json.value;        (* [None] is [null] *)
  streaming : bool;
  loading : bool
}.

(** [data.k]: a field of a parsed object, [undefined] on anything that
    is not an object (reading a field of [null] throws and is handled
    where [data] is inspected). *)
Fixpoint lookup (k : string) (l : list (string * Json.t)) : Json.value :=
  match l with
  | [] => None
  | (k', v) :: r => if (k' =? k)%string then Some v else lookup k r
  end.

Definition field (k : string) (data : Json.t) : Json.value :=
  match data with
  | Json.Obj l => lookup k l
  | _ => None
  end.

Section Decoder.
(** [JSON.parse] ([None] when it throws) and the text [prev + v]
    appends for a value [v]. *)
Variable JSON_parse : string -> option Json.t.
Variable to_text : Json.value -> string.

(** Lines 81-106 for one message: the new state, and whether the
    handler returned (an error frame ends the run). *)
Definition on_message (st : Ui) (message : string) : Ui * bool :=
  if startsWith message "data: " then
    match JSON_parse (slice 6 message) with
    | None => (st, false)
    | Some Json.Null => (st, false)
    | Some data =>
        if Json.truthy (field "error" data) then
          ({| content := content st; imagePrompts := imagePrompts st;
              error := field "error" data;
              streaming := false; loading := false |}, true)
        else if Json.truthy (field "finished" data) then
          ({| content := content st;
              imagePrompts :=
                match field "image_prompts" data with
                | Some p =>
                    if Json.truthy (field "image_prompts" data)
                    then p else imagePrompts st
                | None => imagePrompts st
                end;
              error := error st;
              streaming := false; loading := false |}, false)
        else
          ({| content := content st ++ to_text (field "chunk" data);
              imagePrompts := imagePrompts st; error := error st;
              streaming := streaming st; loading := loading st |}, false)
    end
  else (st, false).

(** The [for] loop of lines 80-107. *)
Fixpoint for_messages (ms : list string) (st : Ui) : Ui * bool :=
  match ms with
  | [] => (st, false)
  | m :: r =>
      let (st', returned) := on_message st m in
      if returned then (st', true) else for_messages r st'
  end.

(** The [while] loop of lines 64-108 over the text of the successive
    reads ([decoder.decode(value)]), ended by [done]. *)
Fixpoint read_loop (chunks : list string) (buffer : string) (st : Ui)
  : Ui :=
  match chunks with
  | [] => st
  | chunk :: rest =>
      let buffer1 := buffer ++ chunk in
      let (buffer2, messages) := pop (split (LF ++ LF) buffer1) in
      let (st', returned) := for_messages messages st in
      if returned then st' else read_loop rest buffer2 st'
  end.

(** Line 62 on: the loop starts with an empty buffer. *)
Definition decode (chunks : list string) (st : Ui) : Ui :=
  read_loop chunks "" st.
End Decoder.

End StreamClient.

(* ================================================================== *)
(** * The endpoint fallback: [pages/api/perplexity-search.js] *)
(* ================================================================== *)

Module Search.
Import Js Http.

Record Request : Type := {
  method : string;
  query : Json.value;
  recency : Json.value
}.

(** The two request shapes of the search server. *)
Inductive Variant : Type := Tool | Prompt.

(** One [fetch] call: every call is a POST of a JSON body with a
    15 second timeout, so the address and the body tell them apart. *)
Record FetchReq : Type := {
  url : string;
  fetch_body : string
}.

(** [await response.json()]: the parsed payload, or the message of the
    error it throws. *)
Inductive JsonResult : Type :=
| Parsed (data : Json.t)
| Unparsable (message : string).

(** A [fetch] call rejects (transport error or timeout) with a message,
    or resolves with a status and a body. *)
Inductive FetchResult : Type :=
| Rejected (message : string)
| Response (st : Z) (json : JsonResult).

(** What the loop of lines 33-91 ends with: the payload of the first
    success, or [lastError?.message] after the last address. *)
Inductive Outcome : Type :=
| Found (data : Json.t)
| Exhausted (lastError : option string).

(** The payload a call succeeds with, if it does: a success status and
    a body that [response.json()] parses. *)
Definition payload (r : FetchResult) : option Json.t :=
  match r with
  | Response st (Parsed data) => if ok st then Some data else None
  | _ => None
  end.

(** Lines 102-118, the text of the [answer] field. *)
Definition troubleshooting (message tried : string) : string :=
  "# Connection Error" ++ LF ++ LF
  ++ "Unable to get search results for your query. Error: " ++ message
  ++ LF ++ LF
  ++ "## Troubleshooting Steps:" ++ LF ++ LF
  ++ "1. Make sure the Perplexity server is running" ++ LF
  ++ "   - Check if container is running with `docker ps`" ++ LF
  ++ "   - If not, restart it with `docker-compose up -d perplexity`"
  ++ LF ++ LF
  ++ "2. Check Docker network connectivity" ++ LF
  ++ "   - Tried these URLs: " ++ tried ++ LF
  ++ "   - Try restarting all containers: `docker-compose down && docker-compose up -d`"
  ++ LF ++ LF
  ++ "3. Check container names" ++ LF
  ++ "   - Run `docker ps` to verify the actual container names" ++ LF
  ++ "   - Update docker-compose.yml if container names don't match URLs".

Definition endpoint (v : Variant) : string :=
  match v with Tool => "/api/tool" | Prompt => "/api/prompt" end.

Definition name_key (v : Variant) : string :=
  match v with Tool => "toolName" | Prompt => "promptName" end.

(** [x || d] on a string that may be missing. *)
Definition nonempty (x : option string) : bool :=
  match x with
  | Some s => negb (s =? "")%string
  | None => false
  end.

(** Line 9: [recency = 'month'], the field or, when the body has none,
    its default. *)
Definition recency_of (req : Request) : Json.t :=
  match recency req with
  | Some v => v
  | None => Json.Str "month"
  end.

Section Handler.
(** [process.env.PERPLEXITY_MCP_URL], and the behaviour of [fetch]:
    the answer to a call may depend on how many calls this request
    has already made. *)
Variable PERPLEXITY_MCP_URL : option string.
Variable fetch : nat -> FetchReq -> FetchResult.

(** Lines 21-26: the addresses, in the order they are tried. *)
Definition urlsToTry : list string :=
  flat_map (fun x => match x with Some s => [s] | None => [] end)
    (filter nonempty
       [PERPLEXITY_MCP_URL;
        Some "http://shopai-perplexity:3500";
        Some "http://perplexity:3500";
        Some "http://localhost:3500"]).

Section Resolve.
Variable q : Json.value.     (* [query] *)
Variable rc : Json.t.        (* [recency], after its default *)

(** The call for one address and one variant (lines 40-50, 67-77). *)
Definition call (mcpUrl : string) (v : Variant) : FetchReq :=
  {| url := mcpUrl ++ endpoint v;
     fetch_body :=
       Json.stringify
         (Json.Obj
            [(name_key v, Json.Str "perplexity_search_web");
             ("args",
              Json.Obj (Json.obj_of [("query", q);
                                     ("recency", Some rc)]))]) |}.

(** Lines 33-91.  [calls] are the calls made so far.  A tool call
    that does not yield a payload falls through to the prompt call
    for the same address; a prompt call that does not yield one
    sets [lastError] and moves to the next address. *)
Fixpoint try_urls (urls : list string) (calls : list FetchReq)
         (lastError : option string) : Outcome * list FetchReq :=
  match urls with
  | [] => (Exhausted lastError, calls)
  | mcpUrl :: rest =>
      let c1 := call mcpUrl Tool in
      let calls1 := (calls ++ [c1])%list in
      match payload (fetch (List.length calls) c1) with
      | Some data => (Found data, calls1)
      | None =>
          let c2 := call mcpUrl Prompt in
          let calls2 := (calls1 ++ [c2])%list in
          match fetch (List.length calls1) c2 with
          | Rejected message => try_urls rest calls2 (Some message)
          | Response st js =>
              if ok st then
                match js with
                | Parsed data => (Found data, calls2)
                | Unparsable message =>
                    try_urls rest calls2 (Some message)
                end
              else
                try_urls rest calls2
                  (Some ("Prompt endpoint responded with status: "
                         ++ show_Z st))
          end
      end
  end.
End Resolve.

(** Line 94: the error thrown after the last address. *)
Definition all_failed_message (lastError : option string) : string :=
  "All connection attempts failed. Last error: "
  ++ match lastError with Some m => m | None => "undefined" end.

Definition tried : string :=
  if nonempty PERPLEXITY_MCP_URL
  then Json.stringify
         (Json.Str (match PERPLEXITY_MCP_URL with Some s => s | None => "" end))
  else Json.stringify (Json.Arr [Json.Str "None configured"]).

(** Lines 95-119: the body sent when the [try] block throws. *)
Definition failure_body (message : string) : Json.t :=
  Json.Obj
    [("error", Json.Str ("Failed to search with Perplexity: " ++ message));
     ("mock", Json.Bool true);
     ("answer", Json.Str (troubleshooting message tried))].

(** The handler: the response and the upstream calls, in order. *)
Definition handler (req : Request) : Res * list FetchReq :=
  if negb (method req =? "POST")%string then
    (json (Json.Obj [("error", Json.Str "Method not allowed")])
          (status 405 fresh), [])
  else if negb (Json.truthy (query req)) then
    (json (Json.Obj [("error", Json.Str "Missing search query")])
          (status 400 fresh), [])
  else
    match try_urls (query req) (recency_of req) urlsToTry [] None with
    | (Found data, calls) => (json data (status 200 fresh), calls)
    | (Exhausted lastError, calls) =>
        (json (failure_body (all_failed_message lastError))
              (status 500 fresh), calls)
    end.

(** The (address, variant) pairs in the order the loop reaches them. *)
Definition candidates (urls : list string) : list (string * Variant) :=
  flat_map (fun u => [(u, Tool); (u, Prompt)]) urls.

Section Attempts.
Variable q : Json.value.
Variable rc : Json.t.

(** The calls for a list of pairs, and the answer to the call for
    one pair made as the [n]-th call of the request (from 0). *)
Definition calls_of (cs : list (string * Variant)) : list FetchReq :=
  map (fun c => call q rc (fst c) (snd c)) cs.

Definition attempt (n : nat) (c : string * Variant) : FetchResult :=
  fetch n (call q rc (fst c) (snd c)).

(** None of the pairs [cs], attempted in a row from call [n] on,
    yields a payload. *)
Fixpoint all_fail (n : nat) (cs : list (string * Variant)) : bool :=
  match cs with
  | [] => true
  | c :: r =>
      match payload (attempt n c) with
      | Some _ => false
      | None => all_fail (S n) r
      end
  end.
End Attempts.

(** The message [lastError] holds after a prompt call that yields no
    payload (lines 84-88): the transport error, the status line of
    line 84, or the error of [response.json()]. *)
Definition prompt_failure (r : FetchResult) : string :=
  match r with
  | Rejected message => message
  | Response st js =>
      if ok st then
        match js with
        | Unparsable message => message
        | Parsed _ => ""
        end
      else "Prompt endpoint responded with status: " ++ show_Z st
  end.

(** [lastError] once the loop has gone through [urls] without a
    payload, starting at call [n]: every address overwrites it with
    the failure of its prompt call. *)
Fixpoint last_error (q : Json.value) (rc : Json.t) (n : nat)
         (urls : list string) (lastError : option string)
  : option string :=
  match urls with
  | [] => lastError
  | u :: us =>
      last_error q rc (S (S n)) us
        (Some (prompt_failure (fetch (S n) (call q rc u Prompt))))
  end.

End Handler.

End Search.

(* ================================================================== *)
(** * The asset proxy: [pages/api/proxy-image.js] *)
(* ================================================================== *)

Module ProxyImage.
Import Js Http.

(** [req.method] and the [imagePath] query parameter ([None] when the
    request has none). *)
Record Request : Type := {
  method : string;
  imagePath : option string
}.

Record FetchReq : Type := {
  url : string;
  fetch_method : string
}.

(** [await response.arrayBuffer()]: the payload, or the message of the
    error it throws. *)
Inductive BufferResult : Type :=
| Buffer (data : list Byte.byte)
| BufferFails (message : string).

Record Upstream : Type := {
  st : Z;
  statusText : string;
  contentType : option string;   (* [headers.get('content-type')] *)
  arrayBuffer : BufferResult
}.

Inductive FetchResult : Type :=
| Rejected (message : string)
| Response (up : Upstream).

(** [imageData.byteLength] *)
Definition byteLength (data : list Byte.byte) : N :=
  N.of_nat (List.length data).

(** Line 18: the path without its query component. *)
Definition cleanImagePath (p : string) : string :=
  hd "" (split "?" p).

Section Handler.
(** [process.env.BACKEND_API_URL], the reading of [Date.now()] (in
    milliseconds) and the behaviour of [fetch]. *)
Variable BACKEND_API_URL : option string.
Variable now : N.
Variable fetch : FetchReq -> FetchResult.

(** Lines 23-30. *)
Definition cacheBuster : string := "?t=" ++ show_N now.

Definition cacheBustedUrl (p : string) : string :=
  (or_default BACKEND_API_URL "http://backend:8000" ++ cleanImagePath p)
  ++ cacheBuster.

(** Lines 74-80. *)
Definition proxy_failed (message clean : string) (res : Res) : Res :=
  json (Json.Obj [("error", Json.Str ("Failed to proxy image: " ++ message));
                  ("imagePath", Json.Str clean)])
       (status 500 res).

Definition handler (req : Request) : Res * list FetchReq :=
  if negb (method req =? "GET")%string
     && negb (method req =? "HEAD")%string then
    (json (Json.Obj [("error", Json.Str "Method not allowed")])
          (status 405 fresh), [])
  else
    match imagePath req with
    | None =>
        (json (Json.Obj [("error", Json.Str "Missing imagePath parameter")])
              (status 400 fresh), [])
    | Some p =>
        if (p =? "")%string then
          (json (Json.Obj [("error", Json.Str "Missing imagePath parameter")])
                (status 400 fresh), [])
        else
          let c := {| url := cacheBustedUrl p;
                      fetch_method := method req |} in
          match fetch c with
          | Rejected message =>
              (proxy_failed message (cleanImagePath p) fresh, [c])
          | Response up =>
              if negb (ok (st up)) then
                (json (Json.Obj
                         [("error",
                           Json.Str ("Failed to fetch image: "
                                     ++ show_Z (st up) ++ " "
                                     ++ statusText up))])
                      (status (st up) fresh), [c])
              else if (method req =? "HEAD")%string then
                (end_ (status 200
                         (setHeader "Content-Type"
                            (or_default (contentType up) "image/png") fresh)),
                 [c])
              else
                let res :=
                  setHeader "Expires" "0"
                    (setHeader "Pragma" "no-cache"
                       (setHeader "Cache-Control"
                          "no-cache, no-store, must-revalidate"
                          (setHeader "Content-Type"
                             (or_default (contentType up) "image/png")
                             fresh))) in
                match arrayBuffer up with
                | BufferFails message =>
                    (proxy_failed message (cleanImagePath p) res, [c])
                | Buffer data =>
                    if (byteLength data <? 100)%N then
                      (json (Json.Obj
                               [("error",
                                 Json.Str "Invalid image data received")])
                            (status 500 res), [c])
                    else (send data (status 200 res), [c])
                end
          end
    end.
End Handler.

End ProxyImage.

(* ================================================================== *)
(** * The reference handed to the page: [/api/generate-image] *)
(* ================================================================== *)

Module GenerateImage.
Import Js.

Section Reference.
(** [encodeURIComponent] is taken as given. *)
Variable encodeURIComponent : string -> string.

(** Line 96: the clock reading in milliseconds and the text [r] of
    [Math.random().toString(36).substring(7)], an input here. *)
Definition cacheBuster (now : N) (r : string) : string :=
  "?t=" ++ show_N now ++ "&r=" ++ r.

(** Line 100: the address of the proxy route the page is given in
    place of the backend address [image_url]. *)
Definition proxyUrl (image_url : string) (now : N) (r : string)
  : string :=
  "/api/proxy-image?imagePath=" ++ encodeURIComponent image_url
  ++ cacheBuster now r.
End Reference.

(** A decimal digit. *)
Definition is_digit (c : ascii) : bool :=
  let n := nat_of_ascii c in ((48 <=? n)%nat && (n <=? 57)%nat).

Fixpoint all_digits (s : string) : bool :=
  match s with
  | "" => true
  | String c s' => is_digit c && all_digits s'
  end.

End GenerateImage.

(* ================================================================== *)
(** * Concrete sessions used by the examples below *)
(* ================================================================== *)

Module Scenario.
Import Js.

(** A well-formed streaming request. *)
Definition stream_req : StreamRelay.Request :=
  {| StreamRelay.method := "POST";
     StreamRelay.req_body :=
       Some (Json.Obj [("topic", Json.Str "electronics");
                       ("audience", Json.Str "any")]) |}.

(** A streaming request without its [audience]. *)
Definition stream_req_no_audience : StreamRelay.Request :=
  {| StreamRelay.method := "POST";
     StreamRelay.req_body :=
       Some (Json.Obj [("topic", Json.Str "electronics")]) |}.

(** An upstream that answers 200 and delivers the given reads. *)
Definition upstream (cs : list string) (e : StreamRelay.ReadEnd)
  : StreamRelay.FetchReq -> StreamRelay.FetchResult :=
  fun _ =>
    StreamRelay.Response 200 None
      (Some {| StreamRelay.chunks := cs; StreamRelay.ending := e |}).

(** The client-visible text of a relay session over those reads. *)
Definition relay_output (cs : list string) : list string :=
  Http.texts
    (Http.body
       (fst (StreamRelay.handler None (upstream cs StreamRelay.Done)
               stream_req))).

(** Two frames as the content backend sends them. *)
Definition frame_hello : string :=
  StreamRelay.frame (Json.Obj [("chunk", Json.Str "Hello ")]).
Definition frame_world : string :=
  StreamRelay.frame (Json.Obj [("chunk", Json.Str "world")]).
Definition two_frames : string := frame_hello ++ frame_world.

(** The same bytes cut after [n] code units. *)
Definition cut (n : nat) (s : string) : list string :=
  [substring 0 n s; slice n s].

(** A search request, and one with an empty query. *)
Definition search_req : Search.Request :=
  {| Search.method := "POST";
     Search.query := Some (Json.Str "best laptops");
     Search.recency := None |}.

Definition search_req_empty : Search.Request :=
  {| Search.method := "POST";
     Search.query := Some (Json.Str "");
     Search.recency := None |}.

(** A search server that is down everywhere: the [n]-th call is refused
    with a message that names [n]. *)
Definition all_refused : nat -> Search.FetchReq -> Search.FetchResult :=
  fun n _ =>
    Search.Rejected ("connection refused #" ++ show_N (N.of_nat n)).

(** Without [PERPLEXITY_MCP_URL] the addresses are A, B, C:
    [shopai-perplexity], [perplexity], [localhost].  Here both calls to
    A fail (a 503, then a refused connection) and the tool call to B
    succeeds; any later call would succeed too. *)
Definition answer : Json.t :=
  Json.Obj [("answer", Json.Str "Laptop X"); ("sources", Json.Arr [])].




(** An image request, the same with HEAD, and an image store that
    serves the payload [data] as a PNG. *)
Definition image_req : ProxyImage.Request :=
  {| ProxyImage.method := "GET";
     ProxyImage.imagePath := Some "/static/images/42.png" |}.

Definition image_head_req : ProxyImage.Request :=
  {| ProxyImage.method := "HEAD";
     ProxyImage.imagePath := Some "/static/images/42.png" |}.

Definition png (data : list Byte.byte) : ProxyImage.Upstream :=
  {| ProxyImage.st := 200;
     ProxyImage.statusText := "OK";
     ProxyImage.contentType := Some "image/png";
     ProxyImage.arrayBuffer := ProxyImage.Buffer data |}.

Definition serves (data : list Byte.byte)
  : ProxyImage.FetchReq -> ProxyImage.FetchResult :=
  fun _ => ProxyImage.Response (png data).

Definition payload_of (n : N) : list Byte.byte :=
  repeat Byte.x00 (N.to_nat n).


End Scenario.

(* ================================================================== *)
(** * More of JavaScript: coercion to text, white-space runs *)
(* ================================================================== *)

Module Coerce.
Import Js.

(** [`${v}`] and [String(v)] for a parsed JSON value: arrays print
    their elements separated by commas, [null] elements as nothing;
    objects print as [[object Object]].  Numbers as in [show_Z]. *)
Fixpoint to_string (j : Json.t) : string :=
  match j with
  | Json.Null => "null"
  | Json.Bool true => "true"
  | Json.Bool false => "false"
  | Json.Num z => show_Z z
  | Json.Str s => s
  | Json.Arr items =>
      (fix go (l : list Json.t) : string :=
         match l with
         | [] => ""
         | x :: r =>
             match x with Json.Null => "" | _ => to_string x end
             ++ match r with [] => "" | _ => "," ++ go r end
         end) items
  | Json.Obj _ => "[object Object]"
  end.

(** [v || d] on a value read from an object. *)
Definition or_value (v : Json.value) (d : Json.t) : Json.t :=
  match v with
  | Some x => if Json.truthy v then x else d
  | None => d
  end.

End Coerce.

(* ================================================================== *)
(** * The status probe of the search server *)
(* ================================================================== *)

(** The second route of the listing [pages/api/generate-content-stream.js]
    (lines 89-163): it pings the tool endpoint, then the prompt endpoint,
    and reports what it found.  It reads nothing from the request. *)
Module PerplexityStatus.
Import Js Http.

Record FetchReq : Type := {
  url : string;
  fetch_body : string
}.

(** Only [ok] and [status] of a response are read. *)
Inductive FetchResult : Type :=
| Rejected (message : string)
| Response (st : Z).

(** The two variables of lines 97-98; [None] is [null]. *)
Record Probe : Type := {
  success : bool;
  error : option string
}.

Section Handler.
Variable PERPLEXITY_MCP_URL : option string.
Variable fetch : FetchReq -> FetchResult.

Definition mcpUrl : string :=
  or_default PERPLEXITY_MCP_URL "http://perplexity-mcp:3500".

Definition ping (v : Search.Variant) : FetchReq :=
  {| url := mcpUrl ++ Search.endpoint v;
     fetch_body :=
       Json.stringify
         (Json.Obj
            [(Search.name_key v, Json.Str "perplexity_search_web");
             ("args", Json.Obj [("query", Json.Str "test");
                                ("recency", Json.Str "day")])]) |}.

(** Lines 100-122. *)
Definition after_tool : Probe :=
  match fetch (ping Search.Tool) with
  | Response st =>
      if ok st then {| success := true; error := None |}
      else {| success := false;
              error := Some ("Tool endpoint responded with status: "
                             ++ show_Z st) |}
  | Rejected message =>
      {| success := false;
         error := Some ("Tool endpoint error: " ++ message) |}
  end.

(** Lines 125-148. *)
Definition after_prompt (p : Probe) : Probe :=
  if success p then p
  else
    match fetch (ping Search.Prompt) with
    | Response st =>
        if ok st then {| success := true; error := None |}
        else {| success := false;
                error := Some ("Prompt endpoint responded with status: "
                               ++ show_Z st) |}
    | Rejected message =>
        {| success := false;
           error :=
             Some (if Search.nonempty (error p)
                   then match error p with
                        | Some e => e
                        | None => ""
                        end ++ "; Prompt endpoint error: " ++ message
                   else "Prompt endpoint error: " ++ message) |}
    end.

(** Lines 150-154: [error || null]. *)
Definition report (p : Probe) : Json.t :=
  Json.Obj
    [("success", Json.Bool (success p));
     ("url", Json.Str mcpUrl);
     ("error",
      match error p with
      | Some e => if (e =? "")%string then Json.Null else Json.Str e
      | None => Json.Null
      end)].

(** An endpoint answered the ping with a status in 200..299. *)
Definition reachable (v : Search.Variant) : bool :=
  match fetch (ping v) with
  | Response st => ok st
  | Rejected _ => false
  end.

(** How a failed ping reads in the report. *)
Definition tool_failure : string :=
  match fetch (ping Search.Tool) with
  | Response st => "Tool endpoint responded with status: " ++ show_Z st
  | Rejected message => "Tool endpoint error: " ++ message
  end.

(** The handler: the response and the calls made. *)
Definition handler : Res * list FetchReq :=
  let p1 := after_tool in
  (json (report (after_prompt p1)) (status 200 fresh),
   if success p1 then [ping Search.Tool]
   else [ping Search.Tool; ping Search.Prompt]).
End Handler.

End PerplexityStatus.

(* ================================================================== *)
(** * The image-generation route: [/api/generate-image] *)
(* ================================================================== *)

Module ImageRoute.
Import Js Http.

Section Handler.
(** [process.env.BACKEND_API_URL]. *)
Variable BACKEND_API_URL : option string.

(** Line 27: the backend the route calls, and the base of the
    [original_url] it hands out beside each reference. *)
Definition backendBaseUrl : string :=
  or_default BACKEND_API_URL "http://backend:8000".
End Handler.

End ImageRoute.

(* ================================================================== *)
(** * The content route: [pages/api/generate-content.js] *)
(* ================================================================== *)

Module GenerateContent.
Import Js Http.

Record Request : Type := {
  method : string;
  topic : Json.value;
  audience : Json.value;
  contentType : Json.value
}.

Record FetchReq : Type := {
  url : string;
  fetch_body : string
}.

(** The [fetch] call rejects, or resolves with a status and a body that
    [response.json()] parses or not.  On a status outside 200..299 the
    body text is only logged and the handler throws whether or not
    reading it fails. *)
Inductive FetchResult : Type :=
| Rejected
| Response (st : Z) (json : option Json.t).

(** Lines 46-49. *)
Definition failed : Res :=
  json (Json.Obj [("error", Json.Str "Failed to generate content")])
       (status 500 fresh).

(** Lines 42-45. *)
Definition formatted (data : Json.t) : Json.t :=
  Json.Obj
    [("content",
      Coerce.or_value (StreamClient.field "explanation" data)
        (Json.Str "No content generated"));
     ("imagePrompts",
      Coerce.or_value (StreamClient.field "image_prompts" data)
        (Json.Arr []))].

Section Handler.
Variable BACKEND_API_URL : option string.
Variable fetch : FetchReq -> FetchResult.

Definition backend_call (req : Request) : FetchReq :=
  {| url := or_default BACKEND_API_URL "http://backend:8000"
            ++ "/api/content/generate";
     fetch_body :=
       Json.stringify
         (Json.Obj (Json.obj_of [("topic", topic req);
                                 ("audience", audience req)])) |}.

Definition handler (req : Request) : Res * list FetchReq :=
  if negb (method req =? "POST")%string then
    (json (Json.Obj [("error", Json.Str "Method not allowed")])
          (status 405 fresh), [])
  else if negb (Json.truthy (topic req))
          || negb (Json.truthy (audience req))
          || negb (Json.truthy (contentType req)) then
    (json (Json.Obj [("error", Json.Str "Missing required fields")])
          (status 400 fresh), [])
  else
    let c := backend_call req in
    match fetch c with
    | Rejected => (failed, [c])
    | Response st js =>
        if negb (ok st) then (failed, [c])
        else
          match js with
          | None => (failed, [c])
          | Some Json.Null => (failed, [c])  (* [data.explanation] throws *)
          | Some data => (json (formatted data) (status 200 fresh), [c])
          end
    end.
End Handler.

End GenerateContent.

(* ================================================================== *)
(** * The page's image addresses *)
(* ================================================================== *)

(** [pages/content.jsx]: the addresses the product page gives an [img]. *)
Module ContentPage.
Import Js.

(** Lines 112-118: what is stored for a prompt, [random] being the text
    of [Math.random().toString(36).substring(7)]. *)
Definition stored (image_url random : string) : string :=
  image_url ++ "?cache=" ++ random.

(** Line 262: the [src] of the image. *)
Definition src (stored_url : string) (now : N) : string :=
  stored_url ++ "?cache=" ++ show_N now.

(** Line 273: the [src] set when the image failed to load. *)
Definition retry_src (stored_url : string) (now : N) : string :=
  hd "" (split "?" stored_url) ++ "?cache=" ++ show_N now.

End ContentPage.

(* ================================================================== *)
(** * The comparison route: [/api/generate-research] *)
(* ================================================================== *)

(** The third route of the listing [pages/api/perplexity-search.js]
    (lines 123-212). *)
Module Research.
Import Js Http.

Record Request : Type := {
  method : string;
  topic : Json.value;
  details : Json.value;
  level : Json.value
}.

Record FetchReq : Type := {
  url : string;
  fetch_body : string
}.

Inductive FetchResult : Type :=
| Rejected
| Response (st : Z) (json : option Json.t).

(** [v === 's'] for a string literal. *)
Definition is_str (v : Json.value) (s : string) : bool :=
  match v with
  | Some (Json.Str x) => (x =? s)%string
  | _ => false
  end.

(** [JSON.stringify(j, null, 2)]; [ind] is the indentation of the line
    the value starts on. *)
Fixpoint pretty (ind : string) (j : Json.t) : string :=
  match j with
  | Json.Arr [] => "[]"
  | Json.Arr items =>
      "[" ++ LF ++ (ind ++ "  ") ++
      (fix go (l : list Json.t) : string :=
         match l with
         | [] => ""
         | x :: r =>
             pretty (ind ++ "  ") x
             ++ match r with
                | [] => ""
                | _ => "," ++ LF ++ (ind ++ "  ") ++ go r
                end
         end) items
      ++ LF ++ ind ++ "]"
  | Json.Obj [] => "{}"
  | Json.Obj fields =>
      "{" ++ LF ++ (ind ++ "  ") ++
      (fix go (l : list (string * Json.t)) : string :=
         match l with
         | [] => ""
         | (k, x) :: r =>
             Json.quote k ++ ": " ++ pretty (ind ++ "  ") x
             ++ match r with
                | [] => ""
                | _ => "," ++ LF ++ (ind ++ "  ") ++ go r
                end
         end) fields
      ++ LF ++ ind ++ "}"
  | _ => Json.stringify j
  end.

(** Lines 137: the query sent to the search server. *)
Definition searchQuery (req : Request) : string :=
  "Compare "
  ++ match topic req with Some t => Coerce.to_string t | None => "undefined" end
  ++ " focusing on "
  ++ Coerce.to_string
       (Coerce.or_value (details req)
          (Json.Str "specs, features, and price"))
  ++ " for someone who is "
  ++ (if is_str (level req) "research" then "researching products"
      else if is_str (level req) "planning" then "planning to purchase soon"
      else "ready to buy now").

Definition search_call (req : Request) : FetchReq :=
  {| url := "http://localhost:3500/api/tool";
     fetch_body :=
       Json.stringify
         (Json.Obj
            [("toolName", Json.Str "perplexity_search_web");
             ("args",
              Json.Obj
                [("query", Json.Str (searchQuery req));
                 ("recency",
                  Json.Str (if is_str (level req) "ready"
                            then "week" else "month"))])]) |}.

(** [`# Product Comparison: ${topic}\n\n${text}`] *)
Definition titled (topic_text text : string) : string :=
  "# Product Comparison: " ++ topic_text ++ LF ++ LF ++ text.

(** A value that is a non-empty string: [v && typeof v === 'string']. *)
Definition text_field (v : Json.value) : option string :=
  match v with
  | Some (Json.Str s) => if (s =? "")%string then None else Some s
  | _ => None
  end.

(** Lines 162-176. *)
Definition markdownContent (topic_text : string) (data : Json.t) : string :=
  match text_field (StreamClient.field "answer" data) with
  | Some answer =>
      if negb (includes answer "#") then titled topic_text answer
      else answer
  | None =>
      match text_field (StreamClient.field "text" data) with
      | Some text => titled topic_text text
      | None => titled topic_text (pretty "" data)
      end
  end.

(** Lines 180-183 for one reference; [None] when reading [ref.url]
    throws, that is on [null]. *)
Definition reference (ref : Json.t) : option Json.t :=
  match ref with
  | Json.Null => None
  | _ =>
      let title := StreamClient.field "title" ref in
      match StreamClient.field "url" ref with
      | Some u =>
          if Json.truthy (Some u) then
            Some (Json.Str
                    ("[" ++ Coerce.to_string (Coerce.or_value title u)
                     ++ "](" ++ Coerce.to_string u ++ ")"))
          else Some (Coerce.or_value title (Json.Str "Unknown source"))
      | None => Some (Coerce.or_value title (Json.Str "Unknown source"))
      end
  end.

Fixpoint references_of (refs : list Json.t) : option (list Json.t) :=
  match refs with
  | [] => Some []
  | ref :: rest =>
      match reference ref, references_of rest with
      | Some x, Some xs => Some (x :: xs)
      | _, _ => None
      end
  end.

(** Lines 179-184: [data.references?.map(...) || []]; [None] when it
    throws. *)
Definition references (data : Json.t) : option (list Json.t) :=
  match StreamClient.field "references" data with
  | None => Some []
  | Some Json.Null => Some []
  | Some (Json.Arr refs) => references_of refs
  | Some _ => None
  end.

(** Lines 157-189: the answer built from the server's payload, [None]
    when building it throws. *)
Definition live (topic_text : string) (data : Json.t) : option Json.t :=
  match data with
  | Json.Null => None
  | _ =>
      match references data with
      | Some refs =>
          Some (Json.Obj [("content",
                           Json.Str (markdownContent topic_text data));
                          ("references", Json.Arr refs)])
      | None => None
      end
  end.

Section Handler.
(** The behaviour of [fetch], and [generateProductComparison]: the
    object it returns for the three fields, [None] when it throws. *)
Variable fetch : FetchReq -> FetchResult.
Variable generateProductComparison :
  Json.value -> Json.value -> Json.value -> option Json.t.

(** Lines 200-211. *)
Definition fall_back (req : Request) : Res :=
  match generateProductComparison (topic req) (details req) (level req)
  with
  | Some mockResponse => json mockResponse (status 200 fresh)
  | None =>
      json (Json.Obj [("error", Json.Str "Failed to generate comparison")])
           (status 500 fresh)
  end.

Definition handler (req : Request) : Res * list FetchReq :=
  if negb (method req =? "POST")%string then
    (json (Json.Obj [("error", Json.Str "Method not allowed")])
          (status 405 fresh), [])
  else if negb (Json.truthy (topic req)) || negb (Json.truthy (level req))
  then
    (json (Json.Obj [("error", Json.Str "Missing required fields")])
          (status 400 fresh), [])
  else
    let c := search_call req in
    match fetch c with
    | Rejected => (fall_back req, [c])
    | Response st js =>
        if ok st then
          match js with
          | Some data =>
              match live (match topic req with
                          | Some t => Coerce.to_string t
                          | None => "undefined"
                          end) data with
              | Some answer => (json answer (status 200 fresh), [c])
              | None => (fall_back req, [c])
              end
          | None => (fall_back req, [c])
          end
        else (fall_back req, [c])
    end.
End Handler.

End Research.

(* ================================================================== *)
(** * Terms for statements about framing *)
(* ================================================================== *)

Module Framing.
Import Js.

(** The payloads of a list of frames hold no line feed. *)
Definition single_lines (ps : list string) : Prop :=
  Forall (fun p => includes p LF = false) ps.

(** A read is closed when it is empty or ends with a line feed. *)
Definition closed (chunk : string) : Prop :=
  chunk = "" \/ exists s, chunk = s ++ LF.

End Framing.

(* ================================================================== *)
(** * More concrete inputs *)
(* ================================================================== *)

Module Sample.
Import Js.



(** The page before a run, and stand-ins for [JSON.parse] and for the
    text of a value: the payload [E] parses to an error object, the
    payload [C] to a chunk, nothing else parses. *)
Definition ui0 : StreamClient.Ui :=
  {| StreamClient.content := "";
     StreamClient.imagePrompts := Json.Arr [];
     StreamClient.error := None;
     StreamClient.streaming := true;
     StreamClient.loading := true |}.

Definition parse : string -> option Json.t :=
  fun s =>
    if (s =? "E")%string then Some (Json.Obj [("error", Json.Str "boom")])
    else if (s =? "C")%string then Some (Json.Obj [("chunk", Json.Str "c")])
    else None.

Definition text_of : Json.value -> string :=
  fun v => match v with Some j => Coerce.to_string j | None => "undefined" end.

(** [JSON.parse] on the three payloads of the session
    [Scenario.two_frames]: the two chunks and the closing
    [{finished: true}] of the relay; [parse] on any other text. *)
Definition parse_session : string -> option Json.t :=
  fun s =>
    if (s =? "{" ++ DQ ++ "chunk" ++ DQ ++ ":" ++ DQ ++ "Hello " ++ DQ ++ "}")%string
    then Some (Json.Obj [("chunk", Json.Str "Hello ")])
    else if (s =? "{" ++ DQ ++ "chunk" ++ DQ ++ ":" ++ DQ ++ "world" ++ DQ ++ "}")%string
    then Some (Json.Obj [("chunk", Json.Str "world")])
    else if (s =? "{" ++ DQ ++ "finished" ++ DQ ++ ":true}")%string
    then Some (Json.Obj [("finished", Json.Bool true)])
    else parse s.

(** A comparison request, a search server that answers it with plain
    text, and a stand-in for the mock generator. *)
Definition research_req : Research.Request :=
  {| Research.method := "POST";
     Research.topic := Some (Json.Str "Pixel 8 vs iPhone 15");
     Research.details := None;
     Research.level := Some (Json.Str "ready") |}.



(** A search server whose tool endpoint is down and whose prompt
    endpoint answers. *)
Definition prompt_only
  : PerplexityStatus.FetchReq -> PerplexityStatus.FetchResult :=
  fun c =>
    if (PerplexityStatus.url c =? "http://perplexity-mcp:3500/api/tool")%string
    then PerplexityStatus.Rejected "connect ECONNREFUSED"
    else PerplexityStatus.Response 200.

End Sample.

(* ================================================================== *)
(** * Facts about the string primitives *)
(* ================================================================== *)

Module JsFacts.
Import Js.

(** ** The primitives on small inputs *)

Example split_on_line_feeds :
  split LF ("a" ++ LF ++ LF ++ "b") = ["a"; ""; "b"].
Proof. reflexivity. Qed.

Example split_on_blank_lines :
  split (LF ++ LF) ("a" ++ LF ++ LF ++ LF ++ "b") = ["a"; LF ++ "b"].
Proof. reflexivity. Qed.

Example split_without_separator : split "?" "/static/a.png" = ["/static/a.png"].
Proof. reflexivity. Qed.

Example split_query :
  split "?" "/static/a.png?t=1&r=x" = ["/static/a.png"; "t=1&r=x"].
Proof. reflexivity. Qed.

Example trim_blank : trim (" " ++ LF ++ "  ") = "".
Proof. reflexivity. Qed.

Example trim_text : trim ("  data: x " ++ LF) = "data: x".
Proof. reflexivity. Qed.

Example stringify_error_object :
  Json.stringify (Json.Obj [("error", Json.Str "Missing required fields")])
  = "{" ++ DQ ++ "error" ++ DQ ++ ":" ++ DQ ++ "Missing required fields"
    ++ DQ ++ "}".
Proof. reflexivity. Qed.

Example stringify_escapes :
  Json.stringify (Json.Str ("a" ++ DQ ++ "b\c" ++ LF))
  = DQ ++ "a\" ++ DQ ++ "b\\c\n" ++ DQ.
Proof. reflexivity. Qed.

(** ** Concatenation, prefixes and suffixes *)

Lemma append_assoc (a b c : string) : (a ++ b) ++ c = a ++ (b ++ c).
Proof. induction a as [|x a IH]; simpl; [reflexivity | now rewrite IH]. Qed.

Lemma append_nil_r (a : string) : a ++ "" = a.
Proof. induction a as [|x a IH]; simpl; [reflexivity | now rewrite IH]. Qed.

Lemma append_length (a b : string) :
  String.length (a ++ b) = String.length a + String.length b.
Proof. induction a as [|x a IH]; simpl; [reflexivity | now rewrite IH]. Qed.

Lemma append_inv_head (p a b : string) : p ++ a = p ++ b -> a = b.
Proof.
  induction p as [|x p IH]; simpl; intros H; [exact H|].
  injection H as H. now apply IH.
Qed.

Lemma startsWith_app (p s : string) : startsWith (p ++ s) p = true.
Proof.
  induction p as [|x p IH]; simpl; [reflexivity|].
  now rewrite Ascii.eqb_refl, IH.
Qed.

Lemma startsWith_split (s p : string) :
  startsWith s p = true -> s = p ++ slice (String.length p) s.
Proof.
  revert s; induction p as [|x p IH]; intros s H; simpl in *.
  - reflexivity.
  - destruct s as [|y s]; [discriminate|].
    apply andb_true_iff in H as [Hxy Hp].
    apply Ascii.eqb_eq in Hxy. subst y.
    simpl. f_equal. now apply IH.
Qed.

Lemma slice_app (p s : string) : slice (String.length p) (p ++ s) = s.
Proof.
  induction p as [|x p IH]; simpl; [now destruct s | exact IH].
Qed.

(** A prefix test looks no further than the prefix is long. *)
Lemma startsWith_app_l (s t p : string) :
  String.length p <= String.length s ->
  startsWith (s ++ t) p = startsWith s p.
Proof.
  revert s; induction p as [|x p IH]; intros s H; simpl in *.
  - reflexivity.
  - destruct s as [|y s]; simpl in *; [lia|].
    rewrite IH by lia. reflexivity.
Qed.

Lemma startsWith_length (s p : string) :
  startsWith s p = true -> String.length p <= String.length s.
Proof.
  revert s; induction p as [|x p IH]; intros s H; simpl in *; [lia|].
  destruct s as [|y s]; [discriminate|].
  apply andb_true_iff in H as [_ Hp]. apply IH in Hp. simpl. lia.
Qed.

Lemma slice_app_l (n : nat) (s t : string) :
  n <= String.length s -> slice n (s ++ t) = slice n s ++ t.
Proof.
  revert s; induction n as [|n IH]; intros s H; simpl.
  - reflexivity.
  - destruct s as [|y s]; simpl in *; [lia|]. apply IH. lia.
Qed.

Lemma slice_length (n : nat) (s : string) :
  String.length (slice n s) = String.length s - n.
Proof.
  revert s; induction n as [|n IH]; intros s; simpl; [lia|].
  destruct s as [|y s]; simpl; [reflexivity | apply IH].
Qed.

(** ** The first occurrence of a separator *)

Lemma find_sep_nil (sep : string) : sep <> "" -> find_sep sep "" = None.
Proof. destruct sep; [congruence | reflexivity]. Qed.

Lemma find_sep_some (sep s a b : string) :
  find_sep sep s = Some (a, b) -> s = a ++ sep ++ b.
Proof.
  revert a b; induction s as [|c s IH]; intros a b; simpl.
  - destruct sep; simpl; [|discriminate].
    intros H; injection H as <- <-. reflexivity.
  - destruct (startsWith (String c s) sep) eqn:E.
    + intros H; injection H as <- <-. simpl.
      now apply startsWith_split.
    + destruct (find_sep sep s) as [[a' b']|]; [|discriminate].
      intros H; injection H as <- <-. simpl. f_equal. now apply IH.
Qed.

Lemma find_sep_app (sep s t a b : string) :
  sep <> "" ->
  find_sep sep s = Some (a, b) ->
  find_sep sep (s ++ t) = Some (a, b ++ t).
Proof.
  intros Hsep; revert a b; induction s as [|c s IH]; intros a b H.
  - rewrite find_sep_nil in H by assumption. discriminate.
  - simpl in H. change (String c s ++ t) with (String c (s ++ t)).
    cbn [find_sep].
    change (String c (s ++ t)) with (String c s ++ t).
    destruct (startsWith (String c s) sep) eqn:E.
    + injection H as <- <-.
      pose proof (startsWith_length _ _ E) as Hlen.
      rewrite startsWith_app_l, E by exact Hlen.
      now rewrite slice_app_l.
    + destruct (find_sep sep s) as [[a' b']|] eqn:F; [|discriminate].
      injection H as <- <-.
      pose proof (find_sep_some _ _ _ _ F) as Hs.
      assert (Hlen : String.length sep <= String.length (String c s)).
      { rewrite Hs. simpl. rewrite !append_length. lia. }
      rewrite startsWith_app_l, E by exact Hlen.
      now rewrite (IH a' b').
Qed.

(** ** [split] *)

Lemma sep_length (sep : string) : sep <> "" -> 1 <= String.length sep.
Proof. destruct sep; [congruence | simpl; lia]. Qed.

Lemma split_from_none (sep : string) (f : nat) (s : string) :
  find_sep sep s = None -> split_from f sep s = [s].
Proof. intros F. destruct f; cbn [split_from]; now rewrite F. Qed.

Lemma split_from_fuel (sep : string) (f1 f2 : nat) (s : string) :
  sep <> "" ->
  String.length s <= f1 -> String.length s <= f2 ->
  split_from f1 sep s = split_from f2 sep s.
Proof.
  intros Hsep; revert f2 s; induction f1 as [|f1 IH]; intros f2 s H1 H2.
  - destruct s; simpl in H1; [|lia].
    now rewrite !split_from_none by now apply find_sep_nil.
  - destruct f2 as [|f2].
    + destruct s; simpl in H2; [|lia].
      now rewrite !split_from_none by now apply find_sep_nil.
    + cbn [split_from]. destruct (find_sep sep s) as [[a b]|] eqn:F; [|reflexivity].
      f_equal. pose proof (find_sep_some _ _ _ _ F) as Hs.
      pose proof (sep_length _ Hsep).
      assert (String.length s
              = String.length a + (String.length sep + String.length b))
        by (rewrite Hs at 1; now rewrite !append_length).
      apply IH; lia.
Qed.

Lemma split_unfold (sep s : string) :
  sep <> "" -> split sep s = split_from (String.length s) sep s.
Proof. destruct sep; [congruence | reflexivity]. Qed.

Lemma split_none (sep s : string) :
  sep <> "" -> find_sep sep s = None -> split sep s = [s].
Proof.
  intros Hsep F. rewrite split_unfold by assumption.
  now apply split_from_none.
Qed.

Lemma split_some (sep s a b : string) :
  sep <> "" -> find_sep sep s = Some (a, b) ->
  split sep s = a :: split sep b.
Proof.
  intros Hsep F. rewrite !split_unfold by assumption.
  pose proof (find_sep_some _ _ _ _ F) as Hs.
  pose proof (sep_length _ Hsep).
  assert (Hl : String.length s
               = String.length a + (String.length sep + String.length b))
    by (rewrite Hs at 1; now rewrite !append_length).
  destruct (String.length s) as [|n] eqn:L; [lia|].
  cbn [split_from]. rewrite F. f_equal. apply split_from_fuel; [assumption | lia | lia].
Qed.

Lemma split_not_nil (sep s : string) : sep <> "" -> split sep s <> [].
Proof.
  intros Hsep. destruct (find_sep sep s) as [[a b]|] eqn:F.
  - now rewrite (split_some _ _ _ _ Hsep F).
  - now rewrite (split_none _ _ Hsep F).
Qed.

(** What [split] leaves after its last separator is rescanned together
    with the text that follows: the pieces of [s ++ t] are the complete
    pieces of [s], then the pieces of the incomplete one with [t]. *)
Lemma split_app (sep s t : string) :
  sep <> "" ->
  split sep (s ++ t)
  = (removelast (split sep s) ++ split sep (last (split sep s) "" ++ t))%list.
Proof.
  intros Hsep.
  remember (String.length s) as n eqn:Hn.
  revert s Hn; induction n as [n IH] using lt_wf_ind; intros s Hn.
  destruct (find_sep sep s) as [[a b]|] eqn:F.
  - rewrite (split_some _ _ _ _ Hsep (find_sep_app _ _ t _ _ Hsep F)).
    rewrite (split_some _ _ _ _ Hsep F).
    pose proof (find_sep_some _ _ _ _ F) as Hs.
    pose proof (sep_length _ Hsep).
    assert (Hl : String.length s
                 = String.length a + (String.length sep + String.length b))
      by (rewrite Hs at 1; now rewrite !append_length).
    rewrite (IH (String.length b)) with (s := b); [|lia|reflexivity].
    pose proof (split_not_nil sep b Hsep) as Hne.
    destruct (split sep b) as [|x l] eqn:E; [congruence|].
    reflexivity.
  - rewrite (split_none _ _ Hsep F). reflexivity.
Qed.

Lemma last_app_r (l l' : list string) (d : string) :
  l' <> [] -> last (l ++ l') d = last l' d.
Proof.
  intros H. induction l as [|x l IH]; [reflexivity|].
  cbn [app last]. rewrite IH.
  destruct (l ++ l')%list eqn:E; [|reflexivity].
  apply app_eq_nil in E as [_ E]. contradiction.
Qed.

(** ** Lines *)

Lemma includes_cons (c : ascii) (s p : string) :
  includes (String c s) p = false -> includes s p = false.
Proof. cbn [includes]. intros H. now apply orb_false_iff in H. Qed.



Lemma texts_map_Text (l : list string) : Http.texts (map Http.Text l) = l.
Proof. induction l as [|x l IH]; simpl; [reflexivity | now rewrite IH]. Qed.

End JsFacts.

(* ================================================================== *)
(** * The stream relay *)
(* ================================================================== *)

Module StreamRelayFacts.
Import Js Http StreamRelay JsFacts.

(** ** What the read loop writes *)

Lemma forward_lines_spec (lines : list string) (res : Res) :
  forward_lines lines res
  = {| statusCode := statusCode res; headers := headers res;
       body := body res ++ map Text (forwarded lines);
       finished := finished res; threw := threw res |}.
Proof.
  revert res; induction lines as [|line lines IH]; intros res.
  - destruct res; simpl. now rewrite app_nil_r.
  - unfold forward_lines in *. cbn [fold_left forwarded flat_map].
    rewrite IH. fold (forwarded lines).
    destruct (startsWith line "data: "); simpl.
    + now rewrite <- app_assoc.
    + reflexivity.
Qed.

Lemma read_loop_spec (cs : list string) (e : ReadEnd) (res : Res) :
  read_loop cs e res
  = {| statusCode := statusCode res; headers := headers res;
       body := body res ++ map Text (relayed cs ++ [closing_frame e]);
       finished := true; threw := threw res |}.
Proof.
  revert res; induction cs as [|chunk cs IH]; intros res.
  - destruct e; reflexivity.
  - cbn [read_loop relayed flat_map]. fold (relayed cs).
    rewrite IH. unfold flush. rewrite forward_lines_spec.
    cbn [statusCode headers body finished threw].
    f_equal. rewrite !map_app. now rewrite <- !app_assoc.
Qed.

Lemma forwarded_are_frames (lines : list string) :
  exists payloads, forwarded lines = map wire payloads.
Proof.
  induction lines as [|line lines [ps IH]].
  - now exists [].
  - unfold forwarded in *. cbn [flat_map]. rewrite IH.
    destruct (startsWith line "data: ").
    + now exists (slice 6 line :: ps).
    + now exists ps.
Qed.

Lemma relayed_are_frames (cs : list string) :
  exists payloads, relayed cs = map wire payloads.
Proof.
  induction cs as [|chunk cs [ps IH]].
  - now exists [].
  - unfold relayed in *. cbn [flat_map]. rewrite IH.
    destruct (forwarded_are_frames (lines_of chunk)) as [qs ->].
    exists (qs ++ ps)%list. now rewrite map_app.
Qed.

Lemma error_frame_wire (msg : string) :
  error_frame msg
  = wire (Json.stringify (Json.Obj [("error", Json.Str msg)])).
Proof. reflexivity. Qed.

Lemma closing_frame_wire (e : ReadEnd) :
  exists payload, closing_frame e = wire payload.
Proof. destruct e; eexists; reflexivity. Qed.

(** ** Outcomes of the handler, case by case *)

Section Cases.
Variable env : option string.
Variable fetch : FetchReq -> FetchResult.
Variable req : Request.
Hypothesis Hpost : method req = "POST".

(** A body with both fields is an object: it can be read. *)
Lemma complete_readable :
  complete req = true -> Json.readable (req_body req) = true.
Proof.
  unfold complete, topic. intros H. apply andb_true_iff in H as [H _].
  destruct (req_body req) as [[| | | | |fields]|];
    try reflexivity; discriminate H.
Qed.

Lemma handler_unreadable :
  Json.readable (req_body req) = false ->
  handler env fetch req = (throw stream_res, []).
Proof.
  unfold handler. rewrite Hpost, String.eqb_refl. cbn [negb].
  now intros ->.
Qed.

Lemma handler_incomplete :
  Json.readable (req_body req) = true ->
  complete req = false ->
  handler env fetch req
  = (end_ (write (error_frame "Missing required fields") stream_res), []).
Proof.
  unfold complete, handler. rewrite Hpost, String.eqb_refl. cbn [negb].
  intros ->. cbn [negb].
  destruct (Json.truthy (topic req)), (Json.truthy (audience req));
    cbn; intros H; try discriminate; reflexivity.
Qed.

Lemma handler_complete :
  complete req = true ->
  handler env fetch req
  = (match fetch (backend_call env req) with
     | Rejected => connect_failed stream_res
     | Response st text stream =>
         if negb (ok st) then
           match text with
           | Some _ =>
               end_ (write (error_frame ("API error: " ++ show_Z st)) stream_res)
           | None => connect_failed stream_res
           end
         else
           match stream with
           | Some s => read_loop (chunks s) (ending s) stream_res
           | None => connect_failed stream_res
           end
     end, [backend_call env req]).
Proof.
  intros H. pose proof (complete_readable H) as Hr. revert H.
  unfold complete, handler. rewrite Hpost, String.eqb_refl, Hr.
  cbn [negb].
  intros H. apply andb_true_iff in H as [-> ->]. cbn [negb orb].
  destruct (fetch (backend_call env req)) as [|st text stream];
    [reflexivity|].
  destruct (negb (ok st)); [now destruct text | now destruct stream].
Qed.
End Cases.

(** ** Failures stay in band, when the body can be read *)

Lemma escape_uint (d : Decimal.uint) :
  Json.escape (NilEmpty.string_of_uint d) = NilEmpty.string_of_uint d.
Proof.
  induction d; cbn [NilEmpty.string_of_uint Json.escape];
    rewrite ?IHd; reflexivity.
Qed.

Lemma escape_show_Z (z : Z) : Json.escape (show_Z z) = show_Z z.
Proof.
  unfold show_Z. destruct (Z.to_int z) as [d|d];
    cbn [NilEmpty.string_of_int Json.escape]; now rewrite escape_uint.
Qed.

Lemma escape_app (a b : string) :
  Json.escape (a ++ b) = Json.escape a ++ Json.escape b.
Proof.
  induction a as [|c a IH]; [reflexivity|].
  cbn [append Json.escape]. now rewrite IH, append_assoc.
Qed.

(** The error frame, letter by letter, for a message that needs no
    escaping. *)
Lemma error_frame_text (msg : string) :
  Json.escape msg = msg ->
  error_frame msg
  = "data: {" ++ DQ ++ "error" ++ DQ ++ ":" ++ DQ ++ msg ++ DQ ++ "}"
    ++ LF ++ LF.
Proof.
  intros H. unfold error_frame, frame.
  cbn [Json.stringify]. unfold Json.quote. rewrite H.
  change (Json.escape "error") with "error".
  rewrite !append_assoc. reflexivity.
Qed.

Lemma error_text_payload (msg : string) :
  "data: {" ++ DQ ++ "error" ++ DQ ++ ":" ++ DQ ++ msg ++ DQ ++ "}"
  ++ LF ++ LF
  = "data: "
    ++ ("{" ++ DQ ++ "error" ++ DQ ++ ":" ++ DQ ++ msg ++ DQ ++ "}")
    ++ LF ++ LF.
Proof.
  cbn [append DQ]. do 10 f_equal. now rewrite !append_assoc.
Qed.

Lemma wire_text (ps : list string) :
  map Text (map wire ps)
  = map (fun p => Text ("data: " ++ p ++ LF ++ LF)) ps.
Proof. now rewrite map_map. Qed.

(** Every POST whose body can be read -- any JSON value but [null] --
    is answered with status 200 and [Content-Type: text/event-stream];
    the response is ended and all of its body is [data:] frames.  Each
    failure is reported by an error frame on that stream, spelled out
    here letter by letter: missing input, a connection that cannot be
    made, an upstream status outside 200..299, and a read that fails
    after some frames were forwarded. *)
Lemma failures_in_band_on_readable_bodies
    (env : option string) (fetch : FetchReq -> FetchResult)
    (req : Request) :
  method req = "POST" ->
  Json.readable (req_body req) = true ->
  let r := fst (handler env fetch req) in
  let error_text := fun msg : string =>
    "data: {" ++ DQ ++ "error" ++ DQ ++ ":" ++ DQ ++ msg ++ DQ ++ "}"
    ++ LF ++ LF in
  statusCode r = 200%Z
  /\ getHeader "Content-Type" r = Some "text/event-stream"
  /\ finished r = true
  /\ threw r = false
  /\ (exists payloads,
        body r = map (fun p => Text ("data: " ++ p ++ LF ++ LF)) payloads)
  /\ (complete req = false ->
      body r = [Text (error_text "Missing required fields")])
  /\ (complete req = true ->
      fetch (backend_call env req) = Rejected ->
      body r = [Text (error_text "Failed to connect to backend")])
  /\ (complete req = true ->
      forall st text stream,
        fetch (backend_call env req) = Response st text stream ->
        ok st = false ->
        body r
        = [Text (error_text
                   match text with
                   | Some _ => "API error: " ++ show_Z st
                   | None => "Failed to connect to backend"
                   end)])
  /\ (complete req = true ->
      forall st text s,
        fetch (backend_call env req) = Response st text (Some s) ->
        ok st = true ->
        ending s = ReadFails ->
        body r
        = (map Text (relayed (chunks s))
           ++ [Text (error_text "Stream processing error")])%list).
Proof.
  intros Hpost Hread r error_text. subst r.
  assert (Hmsg : forall msg, Json.escape msg = msg ->
                             error_frame msg = error_text msg)
    by exact error_frame_text.
  assert (Hapi : forall st, Json.escape ("API error: " ++ show_Z st)
                            = "API error: " ++ show_Z st)
    by (intros st; now rewrite escape_app, escape_show_Z).
  destruct (complete req) eqn:Hc.
  - rewrite (handler_complete env fetch req Hpost Hc). cbn [fst].
    destruct (fetch (backend_call env req)) as [|st text stream] eqn:F.
    + split; [reflexivity|]. split; [reflexivity|].
      split; [reflexivity|]. split; [reflexivity|].
      split; [eexists [_]; reflexivity|].
      split; [discriminate|]. split; [reflexivity|].
      split; intros _ ? ? ? H; discriminate H.
    + destruct (ok st) eqn:Hok; cbn [negb].
      * destruct stream as [s|].
        -- rewrite read_loop_spec.
           cbn [statusCode headers body finished threw].
           split; [reflexivity|]. split; [reflexivity|].
           split; [reflexivity|]. split; [reflexivity|].
           split.
           { destruct (relayed_are_frames (chunks s)) as [ps Hps].
             destruct (closing_frame_wire (ending s)) as [p Hp].
             exists (ps ++ [p])%list.
             rewrite Hps, Hp. change (body stream_res) with (@nil Part).
             cbn [app]. rewrite <- wire_text. f_equal.
             now rewrite !map_app. }
           split; [discriminate|]. split; [discriminate|].
           split.
           { intros _ st' text' stream' H; injection H as <- <- <-.
             rewrite Hok; discriminate. }
           intros _ st' text' s' H; injection H as <- <- <-.
           intros _ He. rewrite He. cbn [closing_frame].
           rewrite map_app. cbn [map].
           now rewrite (Hmsg "Stream processing error" eq_refl).
        -- split; [reflexivity|]. split; [reflexivity|].
           split; [reflexivity|]. split; [reflexivity|].
           split; [eexists [_]; reflexivity|].
           split; [discriminate|]. split; [discriminate|].
           split.
           { intros _ st' text' stream' H; injection H as <- <- <-.
             rewrite Hok; discriminate. }
           intros _ st' text' s' H; discriminate H.
      * assert (Hbody :
                 body match text with
                      | Some _ =>
                          end_ (write (error_frame
                                         ("API error: " ++ show_Z st))
                                  stream_res)
                      | None => connect_failed stream_res
                      end
                 = [Text (error_text
                            match text with
                            | Some _ => "API error: " ++ show_Z st
                            | None => "Failed to connect to backend"
                            end)]).
        { destruct text; [|reflexivity].
          cbn [body end_ write]. now rewrite (Hmsg _ (Hapi st)). }
        split; [now destruct text|]. split; [now destruct text|].
        split; [now destruct text|]. split; [now destruct text|].
        split.
        { rewrite Hbody. unfold error_text. rewrite error_text_payload.
          now eexists [_]. }
        split; [discriminate|]. split; [discriminate|].
        split.
        { intros _ st' text' stream' H; injection H as <- <- <-.
          intros _. exact Hbody. }
        intros _ st' text' s' H; injection H as <- <- ->.
        rewrite Hok; discriminate.
  - rewrite (handler_incomplete env fetch req Hpost Hread Hc). cbn [fst].
    split; [reflexivity|]. split; [reflexivity|].
    split; [reflexivity|]. split; [reflexivity|].
    split; [eexists [_]; reflexivity|].
    split; [reflexivity|].
    repeat split; discriminate.
Qed.

(** ** The failure that is not in band *)

(** C10 at its failing inputs.  The handler takes [topic] and
    [audience] out of the body at line 17, after the streaming headers
    are set and before the [try] of line 25 begins.  A POST whose body
    is [null] (or is missing altogether) makes that line throw, and
    nothing catches it: the handler stops without having written a
    frame, without ending the response and without an upstream call.
    What the client receives is the framework's answer to the
    exception, an HTTP 500, and no error frame. *)
Theorem unreadable_body_escapes_the_stream
    (env : option string) (fetch : FetchReq -> FetchResult)
    (req : Request) :
  method req = "POST" ->
  req_body req = Some Json.Null \/ req_body req = None ->
  let r := fst (handler env fetch req) in
  threw r = true
  /\ body r = []
  /\ finished r = false
  /\ snd (handler env fetch req) = [].
Proof.
  intros Hpost Hbody r. subst r.
  assert (Hread : Json.readable (req_body req) = false)
    by (destruct Hbody as [-> | ->]; reflexivity).
  rewrite (handler_unreadable env fetch req Hpost Hread).
  repeat split.
Qed.

(** The theorem at the body [null], whatever the upstream would do. *)
Lemma unreadable_body_escapes_the_stream_witness :
  let req := {| method := "POST"; req_body := Some Json.Null |} in
  let r := fst (handler None (fun _ => Rejected) req) in
  threw r = true /\ body r = [] /\ finished r = false.
Proof.
  intros req r.
  destruct (unreadable_body_escapes_the_stream None (fun _ => Rejected) req
              eq_refl (or_introl eq_refl)) as (Ht & Hb & Hf & _).
  exact (conj Ht (conj Hb Hf)).
Defined.

(** ** Frames that arrive whole *)



Lemma event_line_no_LF (p : string) :
  includes p LF = false -> includes ("data: " ++ p) LF = false.
Proof. intros H. cbn. exact H. Qed.




(** ** The closing frame *)




(** ** Reads that cut a frame *)

(** C1 at a failing input.  The relay decodes each read on its own and
    carries nothing over to the next one.  Two frames delivered in one
    read are forwarded as two frames; the same bytes cut inside the
    second frame's [data: ] prefix lose that frame, and cut inside its
    payload forward a truncated frame. *)
Theorem relay_depends_on_chunk_boundaries :
  concat_all (Scenario.cut 28 Scenario.two_frames) = Scenario.two_frames
  /\ concat_all (Scenario.cut 40 Scenario.two_frames) = Scenario.two_frames
  /\ Scenario.relay_output [Scenario.two_frames]
     = [Scenario.frame_hello; Scenario.frame_world; finished_frame]
  /\ Scenario.relay_output (Scenario.cut 28 Scenario.two_frames)
     = [Scenario.frame_hello; finished_frame]
  /\ Scenario.relay_output (Scenario.cut 40 Scenario.two_frames)
     = [Scenario.frame_hello;
        wire (substring 6 8 Scenario.frame_world);
        finished_frame].
Proof. repeat split; reflexivity. Qed.

End StreamRelayFacts.

(* ================================================================== *)
(** * The client-side decoder *)
(* ================================================================== *)

Module StreamClientFacts.
Import Js StreamClient JsFacts.

Section Decoder.
Variable JSON_parse : string -> option Json.t.
Variable to_text : Json.value -> string.

Lemma for_messages_app (a b : list string) (st : Ui) :
  for_messages JSON_parse to_text (a ++ b) st
  = let (st', returned)   := for_messages JSON_parse to_text a st in
    if returned then (st', true)
    else for_messages JSON_parse to_text b st'.
Proof.
  revert st; induction a as [|m a IH]; intros st.
  - reflexivity.
  - cbn [app StreamClient.for_messages].
    destruct (on_message JSON_parse to_text st m) as [st1 [|]].
    + reflexivity.
    + apply IH.
Qed.

(** Two reads in a row leave the loop where one read of their
    concatenation leaves it: the unfinished tail of the first is kept
    in [buffer] and completed by the second. *)
Lemma read_loop_merge (c1 c2 : string) (rest : list string)
      (buffer : string) (st : Ui) :
  read_loop JSON_parse to_text (c1 :: c2 :: rest) buffer st
  = read_loop JSON_parse to_text ((c1 ++ c2) :: rest) buffer st.
Proof.
  assert (Hsep : LF ++ LF <> "") by discriminate.
  cbn [StreamClient.read_loop]. unfold pop.
  rewrite <- (append_assoc buffer c1 c2).
  rewrite (split_app (LF ++ LF) (buffer ++ c1) c2 Hsep).
  set (s1 := split (LF ++ LF) (buffer ++ c1)).
  set (s2 := split (LF ++ LF) (last s1 "" ++ c2)).
  assert (Hs2 : s2 <> []) by (apply split_not_nil; exact Hsep).
  rewrite (last_app_r _ _ "" Hs2), (removelast_app _ Hs2).
  rewrite for_messages_app.
  destruct (for_messages JSON_parse to_text (removelast s1) st)
    as [st1 [|]]; reflexivity.
Qed.

Lemma read_loop_concat (chunks : list string) (c buffer : string)
      (st : Ui) :
  read_loop JSON_parse to_text (c :: chunks) buffer st
  = read_loop JSON_parse to_text [c ++ concat_all chunks] buffer st.
Proof.
  revert c; induction chunks as [|c2 chunks IH]; intros c.
  - cbn [concat_all fold_right]. now rewrite append_nil_r.
  - rewrite read_loop_merge, IH.
    cbn [concat_all fold_right]. now rewrite append_assoc.
Qed.

(** The streaming page decodes a stream the same way however the
    reads cut it: a run over any sequence of reads ends in the state
    a single read of the whole text ends in. *)
Theorem decode_chunk_independent (chunks : list string) (st : Ui) :
  decode JSON_parse to_text chunks st
  = decode JSON_parse to_text [concat_all chunks] st.
Proof.
  unfold StreamClient.decode. destruct chunks as [|c chunks].
  - reflexivity.
  - apply read_loop_concat.
Qed.
End Decoder.

End StreamClientFacts.

(* ================================================================== *)
(** * The endpoint fallback *)
(* ================================================================== *)

Module SearchFacts.
Import Js Http Search.

Section Resolve.
Variable env : option string.
Variable fetch : nat -> FetchReq -> FetchResult.
Variable q : Json.value.
Variable rc : Json.t.

(** One turn of the loop when neither call yields a payload. *)
Lemma try_urls_next (u : string) (us : list string)
      (calls : list FetchReq) (lastError : option string) :
  payload (fetch (List.length calls) (call q rc u Tool)) = None ->
  payload (fetch (S (List.length calls)) (call q rc u Prompt)) = None ->
  try_urls fetch q rc (u :: us) calls lastError
  = try_urls fetch q rc us
      (calls ++ [call q rc u Tool; call q rc u Prompt])
      (Some (prompt_failure
               (fetch (S (List.length calls)) (call q rc u Prompt)))).
Proof.
  intros H1 H2. cbn [try_urls]. rewrite H1.
  rewrite length_app, Nat.add_1_r. cbn [List.length].
  rewrite <- app_assoc. cbn [app].
  destruct (fetch (S (List.length calls)) (call q rc u Prompt))
    as [m|st [data|m]]; cbn [payload prompt_failure] in *.
  - reflexivity.
  - destruct (ok st); [discriminate | reflexivity].
  - destruct (ok st); reflexivity.
Qed.


Lemma try_urls_exhausted (urls : list string) :
  forall (calls : list FetchReq) (lastError : option string),
    all_fail fetch q rc (List.length calls) (candidates urls) = true ->
    try_urls fetch q rc urls calls lastError
    = (Exhausted (last_error fetch q rc (List.length calls) urls lastError),
       (calls ++ calls_of q rc (candidates urls))%list).
Proof.
  induction urls as [|u us IH]; intros calls lastError H.
  - cbn. now rewrite app_nil_r.
  - cbn [candidates flat_map app] in H. fold (candidates us) in H.
    cbn [all_fail] in H. unfold attempt in H. cbn [fst snd] in H.
    destruct (payload (fetch (List.length calls) (call q rc u Tool)))
      eqn:E1; [discriminate|].
    destruct (payload (fetch (S (List.length calls))
                         (call q rc u Prompt)))
      eqn:E2; [discriminate|].
    rewrite (try_urls_next u us calls lastError E1 E2).
    rewrite IH.
    + rewrite length_app. cbn [List.length].
      replace (List.length calls + 2) with (S (S (List.length calls)))
        by lia.
      cbn [last_error candidates flat_map app calls_of map fst snd].
      now rewrite <- app_assoc.
    + rewrite length_app. cbn [List.length].
      now replace (List.length calls + 2)
        with (S (S (List.length calls))) by lia.
Qed.

End Resolve.

(** ** The handler *)

Lemma handler_valid (env : option string)
      (fetch : nat -> FetchReq -> FetchResult) (req : Request) :
  method req = "POST" ->
  Json.truthy (query req) = true ->
  handler env fetch req
  = match try_urls fetch (query req) (recency_of req) (urlsToTry env)
            [] None with
    | (Found data, calls) => (json data (status 200 fresh), calls)
    | (Exhausted lastError, calls) =>
        (json (failure_body env (all_failed_message lastError))
              (status 500 fresh), calls)
    end.
Proof.
  intros Hm Hq. unfold handler. rewrite Hm, String.eqb_refl, Hq.
  reflexivity.
Qed.

(** An attempt fails in exactly three ways: the call is rejected, the
    status is outside 200..299, or the status is a success and the
    body does not parse as JSON. *)
Lemma failure_cases (r : FetchResult) :
  payload r = None
  <-> (exists message, r = Rejected message)
      \/ (exists st js, r = Response st js /\ ~ (200 <= st <= 299)%Z)
      \/ (exists st message,
             r = Response st (Unparsable message)
             /\ (200 <= st <= 299)%Z).
Proof.
  assert (Hok : forall st, ok st = true <-> (200 <= st <= 299)%Z)
    by (intros st; unfold ok; rewrite andb_true_iff, !Z.leb_le; tauto).
  split.
  - destruct r as [m|st [data|m]]; cbn [payload].
    + intros _. left. now exists m.
    + destruct (ok st) eqn:E; [discriminate|]. intros _. right. left.
      exists st, (Parsed data). split; [reflexivity|].
      rewrite <- Hok. congruence.
    + intros _. destruct (ok st) eqn:E.
      * right. right. exists st, m. split; [reflexivity|]. now apply Hok.
      * right. left. exists st, (Unparsable m). split; [reflexivity|].
        rewrite <- Hok. congruence.
  - intros [(m & ->) | [(st & js & -> & H) | (st & m & -> & _)]];
      [reflexivity| |reflexivity].
    destruct js as [data|m]; [|reflexivity]. cbn [payload].
    destruct (ok st) eqn:E; [|reflexivity]. apply Hok in E. tauto.
Qed.







(** C3, as the code has it.  When no pair yields a payload the response
    is a 500 whose JSON body has the fields [error], [mock: true] and
    [answer], the last one the troubleshooting text. *)
Theorem exhausted_response_shape
    (env : option string) (fetch : nat -> FetchReq -> FetchResult)
    (req : Request) :
  method req = "POST" ->
  Json.truthy (query req) = true ->
  all_fail fetch (query req) (recency_of req) 0
    (candidates (urlsToTry env)) = true ->
  let r := fst (handler env fetch req) in
  statusCode r = 500%Z
  /\ finished r = true
  /\ getHeader "Content-Type" r = Some "application/json; charset=utf-8"
  /\ exists message,
      body r
      = [Text (Json.stringify
                 (Json.Obj
                    [("error",
                      Json.Str ("Failed to search with Perplexity: "
                                ++ message));
                     ("mock", Json.Bool true);
                     ("answer",
                      Json.Str (troubleshooting message (tried env)))]))].
Proof.
  intros Hm Hq Hall r. subst r.
  rewrite (handler_valid env fetch req Hm Hq).
  rewrite (try_urls_exhausted fetch (query req) (recency_of req)
             (urlsToTry env) [] None Hall).
  cbn [fst]. repeat split. eexists. reflexivity.
Qed.

Lemma exhausted_response_shape_witness :
  let r := fst (handler None Scenario.all_refused Scenario.search_req) in
  statusCode r = 500%Z /\ finished r = true.
Proof.
  intros r.
  destruct (exhausted_response_shape None Scenario.all_refused
              Scenario.search_req eq_refl eq_refl eq_refl)
    as (Hs & Hf & _).
  split; assumption.
Defined.

(** C3, as stated, fails: with the search server down everywhere the
    status of the response is 500, not 200. *)
Lemma exhausted_status_is_not_200 :
  statusCode (fst (handler None Scenario.all_refused Scenario.search_req))
  <> 200%Z.
Proof. vm_compute. discriminate. Qed.

End SearchFacts.

(* ================================================================== *)
(** * The asset proxy *)
(* ================================================================== *)

Module ProxyImageFacts.
Import Js Http ProxyImage JsFacts.

Lemma show_N_inj (a b : N) : show_N a = show_N b -> a = b.
Proof.
  unfold show_N. intros H.
  apply DecimalN.Unsigned.to_uint_inj.
  assert (E : Some (N.to_uint a) = Some (N.to_uint b))
    by (rewrite <- !NilEmpty.usu; now rewrite H).
  now injection E.
Qed.

(** ** The reference built by the image-generation route *)

Lemma show_N_digits (n : N) : GenerateImage.all_digits (show_N n) = true.
Proof.
  unfold show_N. induction (N.to_uint n) as [|d IH|d IH|d IH|d IH|d IH
                                             |d IH|d IH|d IH|d IH|d IH];
    cbn; [reflexivity | exact IH ..].
Qed.

Lemma digits_then_amp (d1 d2 s1 s2 : string) :
  GenerateImage.all_digits d1 = true ->
  GenerateImage.all_digits d2 = true ->
  d1 ++ "&" ++ s1 = d2 ++ "&" ++ s2 -> d1 = d2 /\ s1 = s2.
Proof.
  revert d2; induction d1 as [|c d1 IH]; intros [|c' d2] H1 H2 H.
  - cbn in H. injection H as H. now split.
  - cbn in H, H2. injection H as <- _.
    apply andb_true_iff in H2 as [H2 _]. discriminate H2.
  - cbn in H, H1. injection H as -> _.
    apply andb_true_iff in H1 as [H1 _]. discriminate H1.
  - cbn in H, H1, H2. injection H as <- H.
    apply andb_true_iff in H1 as [_ H1].
    apply andb_true_iff in H2 as [_ H2].
    destruct (IH d2 H1 H2 H) as [-> ->]. now split.
Qed.

Lemma proxyUrl_inj (enc : string -> string) (image_url : string)
      (t1 t2 : N) (r1 r2 : string) :
  GenerateImage.proxyUrl enc image_url t1 r1
  = GenerateImage.proxyUrl enc image_url t2 r2
  <-> t1 = t2 /\ r1 = r2.
Proof.
  split.
  - unfold GenerateImage.proxyUrl, GenerateImage.cacheBuster. intros H.
    do 3 apply append_inv_head in H.
    change ("&r=" ++ r1) with ("&" ++ "r=" ++ r1) in H.
    change ("&r=" ++ r2) with ("&" ++ "r=" ++ r2) in H.
    apply digits_then_amp in H as [Ht Hr]; try apply show_N_digits.
    split; [now apply show_N_inj | now apply append_inv_head in Hr].
  - now intros [-> ->].
Qed.

(** ** The upstream call *)

(** The handler on a GET or HEAD request with a path: one upstream
    call, to the cache-busted address, with the method of the request. *)
Lemma handler_calls (env : option string) (now : N)
      (fetch : FetchReq -> FetchResult) (req : Request) (p : string) :
  (method req = "GET" \/ method req = "HEAD") ->
  imagePath req = Some p -> p <> "" ->
  snd (handler env now fetch req)
  = [{| url := cacheBustedUrl env now p; fetch_method := method req |}].
Proof.
  intros Hm Hp Hne. unfold handler. rewrite Hp.
  assert (Hg : negb (method req =? "GET")%string
               && negb (method req =? "HEAD")%string = false)
    by (destruct Hm as [-> | ->]; reflexivity).
  rewrite Hg. apply String.eqb_neq in Hne. rewrite Hne.
  destruct (fetch _) as [m|up]; [reflexivity|].
  destruct (negb (ok (st up))); [reflexivity|].
  destruct (method req =? "HEAD")%string; [reflexivity|].
  destruct (arrayBuffer up) as [data|m]; [|reflexivity].
  destruct (byteLength data <? 100)%N; reflexivity.
Qed.

(** C7, as the code has it.  Each call of the proxy fetches the upstream
    address with [?t=] and the millisecond clock reading appended; two
    calls for the same path fetch the same address exactly when their
    clock readings are equal.  The reference the image-generation route
    hands to the page carries the clock reading and a random suffix;
    two references to the same image are equal exactly when both are. *)
Theorem cache_token_is_the_clock
    (env : option string) (fetch1 fetch2 : FetchReq -> FetchResult)
    (req : Request) (p : string) (t1 t2 : N)
    (enc : string -> string) (image_url r1 r2 : string) :
  (method req = "GET" \/ method req = "HEAD") ->
  imagePath req = Some p -> p <> "" ->
  map url (snd (handler env t1 fetch1 req))
  = [(or_default env "http://backend:8000" ++ cleanImagePath p)
     ++ "?t=" ++ show_N t1]
  /\ (map url (snd (handler env t1 fetch1 req))
      = map url (snd (handler env t2 fetch2 req)) <-> t1 = t2)
  /\ (GenerateImage.proxyUrl enc image_url t1 r1
      = GenerateImage.proxyUrl enc image_url t2 r2
      <-> t1 = t2 /\ r1 = r2).
Proof.
  intros Hm Hp Hne.
  rewrite !(handler_calls env _ _ req p Hm Hp Hne). cbn [map url].
  split; [reflexivity|]. split; [|apply proxyUrl_inj]. split.
  - intros H. injection H as H. unfold cacheBustedUrl, cacheBuster in H.
    apply append_inv_head in H. apply append_inv_head in H.
    now apply show_N_inj.
  - now intros ->.
Qed.

Lemma cache_token_is_the_clock_witness :
  map url (snd (handler None 1700000000000 (Scenario.serves [])
                  Scenario.image_req))
  = ["http://backend:8000/static/images/42.png?t=1700000000000"].
Proof.
  exact (proj1 (cache_token_is_the_clock None (Scenario.serves [])
                  (Scenario.serves []) Scenario.image_req
                  "/static/images/42.png" 1700000000000 1700000000001
                  (fun s => s) "/static/images/42.png" "k3x9" "k3x9"
                  (or_introl eq_refl) eq_refl
                  (fun H => match H with eq_refl => I end))).
Defined.

(** C7, as stated, fails: a second call made within the same
    millisecond as the first one carries the same token. *)
Lemma cache_token_repeats_within_a_millisecond :
  ~ (forall t1 t2 : N,
       (t1 <= t2)%N ->
       map url (snd (handler None t1 (Scenario.serves []) Scenario.image_req))
       <> map url (snd (handler None t2 (Scenario.serves [])
                          Scenario.image_req))).
Proof.
  intros H. apply (H 1700000000000%N 1700000000000%N); [lia | reflexivity].
Qed.

(** ** Validation of the payload *)

(** C8.  On a GET whose upstream answers with a success status and a
    payload: a payload shorter than 100 bytes is rejected with a 500,
    whatever content type the upstream declares; a payload of 100 bytes
    or more is sent with status 200, and the declared content type is
    the [Content-Type] of the response ([image/png] when the upstream
    declares none). *)
Theorem payload_validated_by_size
    (env : option string) (now : N) (fetch : FetchReq -> FetchResult)
    (req : Request) (p : string) (up : Upstream)
    (data : list Byte.byte) :
  method req = "GET" ->
  imagePath req = Some p -> p <> "" ->
  fetch {| url := cacheBustedUrl env now p; fetch_method := "GET" |}
  = Response up ->
  ok (st up) = true ->
  arrayBuffer up = Buffer data ->
  let r := fst (handler env now fetch req) in
  ((byteLength data < 100)%N ->
   statusCode r = 500%Z
   /\ body r
      = [Text (Json.stringify
                 (Json.Obj [("error",
                             Json.Str "Invalid image data received")]))])
  /\ ((100 <= byteLength data)%N ->
      statusCode r = 200%Z
      /\ body r = [Bytes data]
      /\ finished r = true
      /\ getHeader "Content-Type" r
         = Some (or_default (contentType up) "image/png")
      /\ forall ct, contentType up = Some ct -> ct <> "" ->
                    getHeader "Content-Type" r = Some ct).
Proof.
  intros Hm Hp Hne Hf Hok Hb r. subst r.
  unfold handler. rewrite Hp, Hm. cbn [String.eqb negb andb].
  apply String.eqb_neq in Hne. rewrite Hne.
  change ("GET" =? "GET")%string with true. cbn [negb andb].
  rewrite Hf, Hok, Hb. cbn [negb].
  change ("GET" =? "HEAD")%string with false. cbn iota.
  split.
  - intros Hlt. apply N.ltb_lt in Hlt. rewrite Hlt. cbn [fst].
    split; reflexivity.
  - intros Hge. apply N.ltb_ge in Hge. rewrite Hge. cbn [fst].
    repeat split.
    intros ct Hct Hct'. rewrite Hct.
    apply String.eqb_neq in Hct'. unfold or_default. rewrite Hct'.
    reflexivity.
Qed.

(** The theorem on a payload of 50 bytes and on one of 10,000 bytes,
    both declared [image/png]. *)
Lemma payload_validated_by_size_witness :
  statusCode (fst (handler None 0 (Scenario.serves (Scenario.payload_of 50))
                     Scenario.image_req)) = 500%Z
  /\ (let r := fst (handler None 0
                      (Scenario.serves (Scenario.payload_of 10000))
                      Scenario.image_req) in
      statusCode r = 200%Z
      /\ body r = [Bytes (Scenario.payload_of 10000)]
      /\ getHeader "Content-Type" r = Some "image/png").
Proof.
  split.
  - refine (proj1 (proj1
      (payload_validated_by_size None 0
         (Scenario.serves (Scenario.payload_of 50)) Scenario.image_req
         "/static/images/42.png" (Scenario.png (Scenario.payload_of 50))
         (Scenario.payload_of 50) eq_refl eq_refl _ eq_refl eq_refl eq_refl)
      _)).
    + discriminate.
    + vm_compute. reflexivity.
  - intros r. subst r.
    destruct (proj2
      (payload_validated_by_size None 0
         (Scenario.serves (Scenario.payload_of 10000)) Scenario.image_req
         "/static/images/42.png" (Scenario.png (Scenario.payload_of 10000))
         (Scenario.payload_of 10000) eq_refl eq_refl
         (fun H => match H with eq_refl => I end)
         eq_refl eq_refl eq_refl))
      as (Hs & Hbd & _ & _ & Hct).
    + vm_compute. discriminate.
    + split; [exact Hs|]. split; [exact Hbd|].
      apply Hct; [reflexivity | discriminate].
Defined.

(** ** Response headers *)

(** What a successful GET carries. *)
Lemma get_response_headers
      (env : option string) (now : N) (fetch : FetchReq -> FetchResult)
      (req : Request) (p : string) (up : Upstream)
      (data : list Byte.byte) :
  method req = "GET" ->
  imagePath req = Some p -> p <> "" ->
  fetch {| url := cacheBustedUrl env now p; fetch_method := "GET" |}
  = Response up ->
  ok (st up) = true ->
  arrayBuffer up = Buffer data ->
  (100 <= byteLength data)%N ->
  headers (fst (handler env now fetch req))
  = [("Content-Type", or_default (contentType up) "image/png");
     ("Cache-Control", "no-cache, no-store, must-revalidate");
     ("Pragma", "no-cache");
     ("Expires", "0")].
Proof.
  intros Hm Hp Hne Hf Hok Hb Hge.
  unfold handler. rewrite Hp, Hm.
  apply String.eqb_neq in Hne. rewrite Hne.
  change ("GET" =? "GET")%string with true. cbn [negb andb].
  rewrite Hf, Hok, Hb. cbn [negb].
  change ("GET" =? "HEAD")%string with false. cbn iota.
  apply N.ltb_ge in Hge. rewrite Hge. reflexivity.
Qed.

(** What a successful HEAD carries: the content type and nothing else. *)
Lemma head_response_headers
      (env : option string) (now : N) (fetch : FetchReq -> FetchResult)
      (req : Request) (p : string) (up : Upstream) :
  method req = "HEAD" ->
  imagePath req = Some p -> p <> "" ->
  fetch {| url := cacheBustedUrl env now p; fetch_method := "HEAD" |}
  = Response up ->
  ok (st up) = true ->
  fst (handler env now fetch req)
  = {| statusCode := 200;
       headers := [("Content-Type", or_default (contentType up) "image/png")];
       body := [];
       finished := true; threw := false |}.
Proof.
  intros Hm Hp Hne Hf Hok.
  unfold handler. rewrite Hp, Hm.
  apply String.eqb_neq in Hne. rewrite Hne.
  change ("HEAD" =? "GET")%string with false.
  change ("HEAD" =? "HEAD")%string with true. cbn [negb andb].
  rewrite Hf, Hok. reflexivity.
Qed.

(** C9 at a failing input.  A HEAD request for an image the store
    serves is answered 200 with the mirrored [Content-Type] and none of
    [Cache-Control], [Pragma], [Expires]; the GET request for the same
    image carries all four. *)
Theorem head_response_lacks_cache_headers :
  let head := fst (handler None 0 (Scenario.serves (Scenario.payload_of 200))
                     Scenario.image_head_req) in
  let get := fst (handler None 0 (Scenario.serves (Scenario.payload_of 200))
                    Scenario.image_req) in
  statusCode head = 200%Z
  /\ headers head = [("Content-Type", "image/png")]
  /\ getHeader "Cache-Control" head = None
  /\ getHeader "Pragma" head = None
  /\ getHeader "Expires" head = None
  /\ statusCode get = 200%Z
  /\ headers get
     = [("Content-Type", "image/png");
        ("Cache-Control", "no-cache, no-store, must-revalidate");
        ("Pragma", "no-cache");
        ("Expires", "0")].
Proof. vm_compute. repeat split; reflexivity. Qed.

End ProxyImageFacts.

(* ================================================================== *)
(** * Invalid input *)
(* ================================================================== *)

Module InvalidInput.
Import Js Http.

(** Both routes answer a request whose body is an object without the
    required input at once and make no upstream call: the streaming
    route writes the one error frame, spelled out here, and ends the
    stream; the search route answers 400. *)
Lemma missing_fields_fail_fast :
  (forall (env : option string)
          (fetch : StreamRelay.FetchReq -> StreamRelay.FetchResult)
          (req : StreamRelay.Request),
      StreamRelay.method req = "POST" ->
      Json.readable (StreamRelay.req_body req) = true ->
      StreamRelay.complete req = false ->
      snd (StreamRelay.handler env fetch req) = []
      /\ body (fst (StreamRelay.handler env fetch req))
         = [Text ("data: {" ++ DQ ++ "error" ++ DQ ++ ":" ++ DQ
                  ++ "Missing required fields" ++ DQ ++ "}" ++ LF ++ LF)]
      /\ finished (fst (StreamRelay.handler env fetch req)) = true)
  /\ (forall (env : option string)
             (fetch : nat -> Search.FetchReq -> Search.FetchResult)
             (req : Search.Request),
         Search.method req = "POST" ->
         Json.truthy (Search.query req) = false ->
         snd (Search.handler env fetch req) = []
         /\ statusCode (fst (Search.handler env fetch req)) = 400%Z
         /\ body (fst (Search.handler env fetch req))
            = [Text ("{" ++ DQ ++ "error" ++ DQ ++ ":" ++ DQ
                     ++ "Missing search query" ++ DQ ++ "}")]
         /\ finished (fst (Search.handler env fetch req)) = true).
Proof.
  split.
  - intros env fetch req Hm Hr Hc.
    rewrite (StreamRelayFacts.handler_incomplete env fetch req Hm Hr Hc).
    repeat split.
  - intros env fetch req Hm Hq.
    unfold Search.handler. rewrite Hm, String.eqb_refl, Hq.
    repeat split.
Qed.

(** C6 at its failing input.  A streaming POST whose body is [null]
    has neither [topic] nor [audience], as little as one whose body is
    the empty object.  The empty object is answered as the lemma above
    says: the one error frame, the end of the stream, no upstream
    call.  The [null] body is not: line 17 throws on it before any
    frame is written, so the stream carries no error frame and is not
    ended by the handler.  No upstream call is made in either case. *)
Theorem null_body_gets_no_error_frame
    (env : option string)
    (fetch : StreamRelay.FetchReq -> StreamRelay.FetchResult) :
  let without_body :=
    {| StreamRelay.method := "POST";
       StreamRelay.req_body := Some Json.Null |} in
  let without_fields :=
    {| StreamRelay.method := "POST";
       StreamRelay.req_body := Some (Json.Obj []) |} in
  let answer := fun req => fst (StreamRelay.handler env fetch req) in
  let calls := fun req => snd (StreamRelay.handler env fetch req) in
  (Json.truthy (StreamRelay.topic without_fields) = false
   /\ Json.truthy (StreamRelay.audience without_fields) = false
   /\ body (answer without_fields)
      = [Text ("data: {" ++ DQ ++ "error" ++ DQ ++ ":" ++ DQ
               ++ "Missing required fields" ++ DQ ++ "}" ++ LF ++ LF)]
   /\ finished (answer without_fields) = true
   /\ threw (answer without_fields) = false
   /\ calls without_fields = [])
  /\ (Json.truthy (StreamRelay.topic without_body) = false
      /\ Json.truthy (StreamRelay.audience without_body) = false
      /\ body (answer without_body) = []
      /\ finished (answer without_body) = false
      /\ threw (answer without_body) = true
      /\ calls without_body = []).
Proof. cbv zeta. repeat split. Qed.

End InvalidInput.

(* ================================================================== *)
(** * More facts about the string primitives *)
(* ================================================================== *)

Module SplitFacts.
Import Js JsFacts.

Lemma startsWith_extend (s t p : string) :
  startsWith s p = true -> startsWith (s ++ t) p = true.
Proof.
  intros H. rewrite startsWith_app_l; [exact H|].
  now apply startsWith_length.
Qed.

(** [find_sep] finds an occurrence exactly when [includes] does. *)
Lemma find_sep_none (sep s : string) :
  find_sep sep s = None <-> includes s sep = false.
Proof.
  induction s as [|c s IH]; cbn [find_sep includes].
  - destruct (startsWith "" sep); split; congruence.
  - destruct (startsWith (String c s) sep); cbn [orb].
    + split; congruence.
    + rewrite <- IH. destruct (find_sep sep s) as [[a b]|];
        split; congruence.
Qed.

(** The text before the first separator holds no separator. *)
Lemma find_sep_before (sep s a b : string) :
  sep <> "" ->
  find_sep sep s = Some (a, b) -> includes a sep = false.
Proof.
  intros Hsep. revert a b; induction s as [|c s IH]; intros a b H.
  - rewrite find_sep_nil in H by assumption. discriminate.
  - cbn [find_sep] in H.
    destruct (startsWith (String c s) sep) eqn:E.
    + injection H as <- _. destruct sep; [congruence | reflexivity].
    + destruct (find_sep sep s) as [[a' b']|] eqn:F; [|discriminate].
      injection H as <- <-. cbn [includes].
      rewrite (IH a' b' eq_refl), orb_false_r.
      destruct (startsWith (String c a') sep) eqn:E'; [|reflexivity].
      pose proof (find_sep_some _ _ _ _ F) as ->.
      change (String c (a' ++ sep ++ b'))
        with (String c a' ++ sep ++ b') in E.
      now rewrite (startsWith_extend _ (sep ++ b') _ E') in E.
Qed.

(** No piece of a [split] holds the separator. *)
Lemma split_pieces_clean (sep s : string) :
  sep <> "" ->
  Forall (fun piece => includes piece sep = false) (split sep s).
Proof.
  intros Hsep.
  remember (String.length s) as n eqn:Hn.
  revert s Hn; induction n as [n IH] using lt_wf_ind; intros s Hn.
  destruct (find_sep sep s) as [[a b]|] eqn:F.
  - rewrite (split_some _ _ _ _ Hsep F). constructor.
    + exact (find_sep_before _ _ _ _ Hsep F).
    + pose proof (find_sep_some _ _ _ _ F) as Hs.
      pose proof (sep_length _ Hsep).
      apply (IH (String.length b)); [|reflexivity].
      rewrite Hn, Hs, !append_length. lia.
  - rewrite (split_none _ _ Hsep F). constructor; [|constructor].
    now apply find_sep_none.
Qed.

(** ** Single code units *)

Lemma includes_char_app (c : ascii) (a b : string) :
  includes (a ++ b) (String c "")
  = includes a (String c "") || includes b (String c "").
Proof.
  induction a as [|x a IH].
  - cbn. reflexivity.
  - change (String x a ++ b) with (String x (a ++ b)).
    cbn [includes]. rewrite IH.
    cbn [startsWith]. now rewrite orb_assoc.
Qed.

Lemma includes_char_slice (c : ascii) (n : nat) (s : string) :
  includes s (String c "") = false ->
  includes (slice n s) (String c "") = false.
Proof.
  revert s; induction n as [|n IH]; intros s H; cbn [slice].
  - exact H.
  - destruct s as [|x s]; [reflexivity|].
    apply IH. now apply includes_cons in H.
Qed.

Lemma find_sep_char (c : ascii) (p rest : string) :
  includes p (String c "") = false ->
  find_sep (String c "") (p ++ String c rest) = Some (p, rest).
Proof.
  induction p as [|x p IH]; intros H.
  - cbn [append find_sep startsWith]. rewrite Ascii.eqb_refl.
    reflexivity.
  - change (String x p ++ String c rest)
      with (String x (p ++ String c rest)).
    cbn [find_sep].
    assert (E : startsWith (String x (p ++ String c rest)) (String c "")
                = false).
    { cbn [includes] in H. apply orb_false_iff in H as [H _].
      cbn [startsWith] in *. exact H. }
    rewrite E, IH by (now apply includes_cons in H). reflexivity.
Qed.

End SplitFacts.

(* ================================================================== *)
(** * The status probe *)
(* ================================================================== *)

Module PerplexityStatusFacts.
Import Js Http PerplexityStatus.

Section Probe.
Variable env : option string.
Variable fetch : FetchReq -> FetchResult.

Lemma after_tool_success :
  success (after_tool env fetch) = reachable env fetch Search.Tool.
Proof.
  unfold after_tool, reachable.
  destruct (fetch (ping env Search.Tool)) as [m|st]; [reflexivity|].
  now destruct (ok st).
Qed.

Lemma after_tool_error :
  reachable env fetch Search.Tool = false ->
  error (after_tool env fetch) = Some (tool_failure env fetch).
Proof.
  unfold after_tool, reachable, tool_failure.
  destruct (fetch (ping env Search.Tool)) as [m|st]; [reflexivity|].
  now destruct (ok st).
Qed.

(** The probe always answers 200.  It reports [success: true] exactly
    when one of the two endpoints answered its ping with a status in
    200..299, whatever the body; the [error] field is [null] exactly
    then.  The prompt endpoint is pinged only when the tool endpoint
    did not answer that way. *)
Theorem probe_reports_reachability :
  let r := fst (handler env fetch) in
  let up := reachable env fetch Search.Tool
            || reachable env fetch Search.Prompt in
  statusCode r = 200%Z
  /\ finished r = true
  /\ snd (handler env fetch)
     = (if reachable env fetch Search.Tool
        then [ping env Search.Tool]
        else [ping env Search.Tool; ping env Search.Prompt])
  /\ exists e : Json.t,
       body r
       = [Text (Json.stringify
                  (Json.Obj [("success", Json.Bool up);
                             ("url", Json.Str (mcpUrl env));
                             ("error", e)]))]
       /\ (e = Json.Null <-> up = true).
Proof.
  intros r up. subst r up. unfold handler. cbn [fst snd].
  rewrite after_tool_success.
  split; [reflexivity|]. split; [reflexivity|]. split; [reflexivity|].
  unfold after_prompt. rewrite after_tool_success.
  destruct (reachable env fetch Search.Tool) eqn:T.
  - unfold report. rewrite after_tool_success, T. cbn [orb].
    unfold after_tool, reachable in *.
    destruct (fetch (ping env Search.Tool)) as [m|st]; [discriminate|].
    rewrite T. cbn [error]. eexists. split; [reflexivity|].
    split; reflexivity.
  - cbn [orb]. rewrite (after_tool_error T). unfold reachable.
    destruct (fetch (ping env Search.Prompt)) as [m|st].
    + unfold report. cbn [success error].
      eexists. split; [reflexivity|].
      unfold tool_failure.
      destruct (fetch (ping env Search.Tool)) as [m'|st'];
        cbn; split; discriminate.
    + destruct (ok st); unfold report; cbn [success error].
      * eexists. split; [reflexivity|]. split; reflexivity.
      * eexists. split; [reflexivity|]. cbn. split; discriminate.
Qed.

(** When neither endpoint answers, the report names the failure of
    the prompt ping; the failure of the tool ping is kept, in front
    of it, only when the prompt ping was rejected. *)
Theorem probe_error_text :
  reachable env fetch Search.Tool = false ->
  reachable env fetch Search.Prompt = false ->
  body (fst (handler env fetch))
  = [Text (Json.stringify
             (Json.Obj
                [("success", Json.Bool false);
                 ("url", Json.Str (mcpUrl env));
                 ("error",
                  Json.Str
                    match fetch (ping env Search.Prompt) with
                    | Response st =>
                        "Prompt endpoint responded with status: "
                        ++ show_Z st
                    | Rejected message =>
                        tool_failure env fetch
                        ++ "; Prompt endpoint error: " ++ message
                    end)]))].
Proof.
  intros T P. unfold handler. cbn [fst].
  unfold after_prompt. rewrite after_tool_success, T.
  rewrite (after_tool_error T). unfold reachable in P.
  assert (Hne : Search.nonempty (Some (tool_failure env fetch)) = true).
  { unfold tool_failure.
    now destruct (fetch (ping env Search.Tool)). }
  destruct (fetch (ping env Search.Prompt)) as [m|st].
  - rewrite Hne. unfold report. cbn [success error].
    unfold tool_failure.
    now destruct (fetch (ping env Search.Tool)).
  - rewrite P. reflexivity.
Qed.
End Probe.

Lemma probe_error_text_witness :
  body (fst (handler None (fun _ => Rejected "timeout")))
  = [Text (Json.stringify
             (Json.Obj
                [("success", Json.Bool false);
                 ("url", Json.Str "http://perplexity-mcp:3500");
                 ("error",
                  Json.Str
                    "Tool endpoint error: timeout; Prompt endpoint error: timeout")]))].
Proof.
  exact (probe_error_text None (fun _ => Rejected "timeout")
           eq_refl eq_refl).
Defined.

End PerplexityStatusFacts.

(* ================================================================== *)
(** * More about the asset proxy *)
(* ================================================================== *)

Module ProxyImageMore.
Import Js Http ProxyImage JsFacts SplitFacts.

Lemma question_mark : "?" <> "".
Proof. discriminate. Qed.

(** ** The path without its query *)

(** Line 18 keeps the text before the first question mark: the cleaned
    path holds no question mark, the path is the cleaned path followed
    by nothing or by a question mark and more, and cleaning again
    changes nothing. *)
Theorem clean_path_is_query_free_prefix (p : string) :
  includes (cleanImagePath p) "?" = false
  /\ (p = cleanImagePath p
      \/ exists q, p = cleanImagePath p ++ "?" ++ q)
  /\ cleanImagePath (cleanImagePath p) = cleanImagePath p.
Proof.
  unfold cleanImagePath.
  destruct (find_sep "?" p) as [[a b]|] eqn:F.
  - rewrite (split_some _ _ _ _ question_mark F). cbn [hd].
    pose proof (find_sep_before _ _ _ _ question_mark F) as Ha.
    split; [exact Ha|]. split.
    + right. exists b. exact (find_sep_some _ _ _ _ F).
    + apply find_sep_none in Ha.
      now rewrite (split_none _ _ question_mark Ha).
  - rewrite (split_none _ _ question_mark F). cbn [hd].
    split; [now apply find_sep_none|]. split; [now left|].
    now rewrite (split_none _ _ question_mark F).
Qed.

Lemma clean_path_strips (p q : string) :
  includes p "?" = false -> cleanImagePath (p ++ "?" ++ q) = p.
Proof.
  intros H. unfold cleanImagePath.
  change ("?" ++ q) with (String "?" q).
  now rewrite (split_some _ _ _ _ question_mark (find_sep_char _ p q H)).
Qed.

(** ** Which answers carry what *)

(** [res.json] adds the serialised value to the body, except at the
    two statuses that carry none. *)
Lemma json_body (j : Json.t) (r : Res) :
  body (json j r)
  = if bodiless (statusCode r) then body r
    else (body r ++ [Text (Json.stringify j)])%list.
Proof.
  unfold json. cbn [statusCode setHeader].
  now destruct (bodiless (statusCode r)).
Qed.



(** The proxy sends image bytes only in a 200 answer to a GET, and only
    bytes the upstream delivered with a success status, 100 of them at
    least. *)
Theorem bytes_only_when_valid
    (env : option string) (now : N) (fetch : FetchReq -> FetchResult)
    (req : Request) (data : list Byte.byte) :
  In (Bytes data) (body (fst (handler env now fetch req))) ->
  statusCode (fst (handler env now fetch req)) = 200%Z
  /\ method req = "GET"
  /\ (100 <= byteLength data)%N
  /\ exists p up,
       imagePath req = Some p
       /\ fetch {| url := cacheBustedUrl env now p; fetch_method := "GET" |}
          = Response up
       /\ ok (st up) = true
       /\ arrayBuffer up = Buffer data.
Proof.
  unfold handler.
  destruct (negb (method req =? "GET")%string
            && negb (method req =? "HEAD")%string) eqn:Hm.
  { cbn. intros [H|[]]. discriminate. }
  destruct (imagePath req) as [p|]; [|cbn; intros [H|[]]; discriminate].
  destruct (p =? "")%string; [cbn; intros [H|[]]; discriminate|].
  destruct (fetch _) as [m|up] eqn:F; [cbn; intros [H|[]]; discriminate|].
  destruct (negb (ok (st up))) eqn:Hok.
  { cbn [fst]. rewrite json_body. cbn [statusCode status body fresh app].
    destruct (bodiless (st up)); [intros []|intros [H|[]]; discriminate]. }
  destruct (method req =? "HEAD")%string eqn:Hh; [cbn; intros []|].
  assert (Hget : method req = "GET").
  { cbn [negb andb] in Hm. rewrite andb_true_r in Hm.
    apply negb_false_iff in Hm. now apply String.eqb_eq in Hm. }
  rewrite Hget in F.
  destruct (arrayBuffer up) as [d|m] eqn:B;
    [|cbn; intros [H|[]]; discriminate].
  destruct (byteLength d <? 100)%N eqn:L;
    [cbn; intros [H|[]]; discriminate|].
  cbn. intros [H|[]]. injection H as ->.
  apply N.ltb_ge in L. apply negb_false_iff in Hok.
  repeat split; try assumption.
  exists p, up. repeat split; assumption.
Qed.

Lemma bytes_only_when_valid_witness :
  statusCode
    (fst (handler None 0 (Scenario.serves (Scenario.payload_of 200))
            Scenario.image_req)) = 200%Z
  /\ (100 <= byteLength (Scenario.payload_of 200))%N.
Proof.
  destruct (bytes_only_when_valid None 0
              (Scenario.serves (Scenario.payload_of 200))
              Scenario.image_req (Scenario.payload_of 200))
    as (Hs & _ & Hl & _).
  - vm_compute. left. reflexivity.
  - split; assumption.
Defined.



(** A HEAD request never reads the payload: for an image whose payload
    a GET rejects as too small, the HEAD answer is still a 200 with an
    empty body. *)
Theorem head_accepts_what_get_rejects
    (env : option string) (now : N) (fetch : FetchReq -> FetchResult)
    (p : string) (up : Upstream) (data : list Byte.byte) :
  p <> "" ->
  fetch {| url := cacheBustedUrl env now p; fetch_method := "HEAD" |}
  = Response up ->
  fetch {| url := cacheBustedUrl env now p; fetch_method := "GET" |}
  = Response up ->
  ok (st up) = true ->
  arrayBuffer up = Buffer data ->
  (byteLength data < 100)%N ->
  let head := fst (handler env now fetch
                     {| method := "HEAD"; imagePath := Some p |}) in
  let get := fst (handler env now fetch
                    {| method := "GET"; imagePath := Some p |}) in
  statusCode head = 200%Z /\ body head = [] /\ finished head = true
  /\ statusCode get = 500%Z.
Proof.
  intros Hne Fh Fg Hok Hb Hlt head get. subst head get.
  rewrite (ProxyImageFacts.head_response_headers env now fetch
             {| method := "HEAD"; imagePath := Some p |} p up
             eq_refl eq_refl Hne Fh Hok).
  repeat split.
  unfold handler. cbn [method imagePath].
  apply String.eqb_neq in Hne. rewrite Hne.
  change ("GET" =? "GET")%string with true.
  change ("GET" =? "HEAD")%string with false. cbn [negb andb].
  rewrite Fg, Hok, Hb. cbn [negb].
  apply N.ltb_lt in Hlt. rewrite Hlt. reflexivity.
Qed.

Lemma head_accepts_what_get_rejects_witness :
  statusCode
    (fst (handler None 0 (Scenario.serves (Scenario.payload_of 50))
            Scenario.image_head_req)) = 200%Z
  /\ statusCode
       (fst (handler None 0 (Scenario.serves (Scenario.payload_of 50))
               Scenario.image_req)) = 500%Z.
Proof.
  destruct (head_accepts_what_get_rejects None 0
              (Scenario.serves (Scenario.payload_of 50))
              "/static/images/42.png"
              (Scenario.png (Scenario.payload_of 50))
              (Scenario.payload_of 50))
    as (Hh & _ & _ & Hg);
    try reflexivity; try discriminate.
  split; assumption.
Defined.

End ProxyImageMore.

(* ================================================================== *)
(** * From the image-generation route to the proxy *)
(* ================================================================== *)

Module ImageRouteFacts.
Import Js Http ImageRoute JsFacts SplitFacts.

(** ** From the reference to the proxy *)

(** The page's request for a reference reaches the proxy with the path
    of the image followed by the [?t=] token of the reference.  The
    proxy strips the token and fetches the backend address the
    reference stands for, with a token of its own.  A path that holds
    a question mark itself loses everything from it on. *)
Theorem proxy_fetches_the_original
    (env : option string) (t1 now : N)
    (fetch : ProxyImage.FetchReq -> ProxyImage.FetchResult)
    (mth image_url : string) :
  (mth = "GET" \/ mth = "HEAD") ->
  includes image_url "?" = false ->
  map ProxyImage.url
    (snd (ProxyImage.handler env now fetch
            {| ProxyImage.method := mth;
               ProxyImage.imagePath :=
                 Some (image_url ++ "?t=" ++ show_N t1) |}))
  = [(backendBaseUrl env ++ image_url) ++ "?t=" ++ show_N now].
Proof.
  intros Hm Hq.
  rewrite (ProxyImageFacts.handler_calls env now fetch
             {| ProxyImage.method := mth;
                ProxyImage.imagePath :=
                  Some (image_url ++ "?t=" ++ show_N t1) |}
             (image_url ++ "?t=" ++ show_N t1) Hm eq_refl).
  - cbn [map ProxyImage.url]. unfold ProxyImage.cacheBustedUrl.
    change ("?t=" ++ show_N t1) with ("?" ++ "t=" ++ show_N t1).
    now rewrite (ProxyImageMore.clean_path_strips _ _ Hq).
  - destruct image_url; discriminate.
Qed.

Lemma proxy_fetches_the_original_witness :
  map ProxyImage.url
    (snd (ProxyImage.handler None 1700000000500
            (Scenario.serves [])
            {| ProxyImage.method := "GET";
               ProxyImage.imagePath :=
                 Some "/static/images/42.png?t=1700000000000" |}))
  = ["http://backend:8000/static/images/42.png?t=1700000000500"].
Proof.
  exact (proxy_fetches_the_original None 1700000000000 1700000000500
           (Scenario.serves []) "GET" "/static/images/42.png"
           (or_introl eq_refl) eq_refl).
Defined.

End ImageRouteFacts.

(* ================================================================== *)
(** * The content route *)
(* ================================================================== *)

Module GenerateContentFacts.
Import Js Http GenerateContent.

Lemma or_value_truthy (v : Json.value) (d : Json.t) :
  Json.truthy (Some d) = true ->
  Json.truthy (Some (Coerce.or_value v d)) = true.
Proof.
  intros Hd. unfold Coerce.or_value. destruct v as [x|]; [|exact Hd].
  destruct (Json.truthy (Some x)) eqn:E; [exact E | exact Hd].
Qed.



End GenerateContentFacts.

(* ================================================================== *)
(** * The page's image addresses *)
(* ================================================================== *)

Module AddressFacts.
Import Js Http JsFacts SplitFacts.

(** When an image fails to load, the page retries with the stored
    address cut at its first question mark.  For an address that came
    from the image-generation route this is the bare proxy route: the
    retry address does not name the image any more. *)
Theorem retry_address_drops_the_image
    (enc : string -> string) (image_url rnd rnd' : string) (t now : N) :
  ContentPage.retry_src
    (ContentPage.stored (GenerateImage.proxyUrl enc image_url t rnd) rnd')
    now
  = "/api/proxy-image?cache=" ++ show_N now.
Proof.
  unfold ContentPage.retry_src, ContentPage.stored, GenerateImage.proxyUrl.
  change ("/api/proxy-image?imagePath="
          ++ enc image_url ++ GenerateImage.cacheBuster t rnd)
    with ("/api/proxy-image"
          ++ String "?" ("imagePath=" ++ enc image_url
                         ++ GenerateImage.cacheBuster t rnd)).
  rewrite append_assoc.
  change (String "?" ("imagePath=" ++ enc image_url
                      ++ GenerateImage.cacheBuster t rnd)
          ++ "?cache=" ++ rnd')
    with (String "?" (("imagePath=" ++ enc image_url
                       ++ GenerateImage.cacheBuster t rnd)
                      ++ "?cache=" ++ rnd')).
  rewrite (split_some "?" _ "/api/proxy-image" _
             ProxyImageMore.question_mark
             (find_sep_char "?" "/api/proxy-image" _ eq_refl)).
  reflexivity.
Qed.

End AddressFacts.

(* ================================================================== *)
(** * Frames are single lines *)
(* ================================================================== *)

Module FramingFacts.
Import Js Http StreamRelay JsFacts SplitFacts.

(** ** [JSON.stringify] writes no line feed *)

Lemma LF_app (a b : string) :
  includes (a ++ b) LF = includes a LF || includes b LF.
Proof. apply includes_char_app. Qed.

Lemma LF_free_app (a b : string) :
  includes a LF = false -> includes b LF = false ->
  includes (a ++ b) LF = false.
Proof. intros Ha Hb. now rewrite LF_app, Ha, Hb. Qed.

Lemma uint_LF_free (d : Decimal.uint) :
  includes (NilEmpty.string_of_uint d) LF = false.
Proof.
  induction d; cbn [NilEmpty.string_of_uint includes];
    [reflexivity | rewrite IHd; reflexivity ..].
Qed.

Lemma show_Z_LF_free (z : Z) : includes (show_Z z) LF = false.
Proof.
  unfold show_Z, NilEmpty.string_of_int.
  destruct (Z.to_int z) as [d|d].
  - apply uint_LF_free.
  - cbn [includes]. rewrite uint_LF_free. reflexivity.
Qed.

Lemma escape_char_LF_free (c : ascii) :
  includes (Json.escape_char c) LF = false.
Proof. destruct c as [[] [] [] [] [] [] [] []]; reflexivity. Qed.

Lemma escape_LF_free (s : string) : includes (Json.escape s) LF = false.
Proof.
  induction s as [|c s IH]; [reflexivity|].
  cbn [Json.escape]. apply LF_free_app; [apply escape_char_LF_free | exact IH].
Qed.

Lemma quote_LF_free (s : string) : includes (Json.quote s) LF = false.
Proof.
  unfold Json.quote. apply LF_free_app; [reflexivity|].
  apply LF_free_app; [apply escape_LF_free | reflexivity].
Qed.

Lemma stringify_LF_free (j : Json.t) :
  includes (Json.stringify j) LF = false.
Proof.
  revert j. fix stringify_LF_free 1. intros j.
  destruct j as [|[|]|z|s|items|fields]; cbn [Json.stringify].
  - reflexivity.
  - reflexivity.
  - reflexivity.
  - apply show_Z_LF_free.
  - apply quote_LF_free.
  - apply LF_free_app; [reflexivity|].
    apply LF_free_app; [|reflexivity].
    induction items as [|x r IH]; [reflexivity|].
    apply LF_free_app; [apply stringify_LF_free|].
    destruct r as [|y r']; [reflexivity|].
    apply LF_free_app; [reflexivity | exact IH].
  - apply LF_free_app; [reflexivity|].
    apply LF_free_app; [|reflexivity].
    induction fields as [|[k x] r IH]; [reflexivity|].
    apply LF_free_app; [apply quote_LF_free|].
    apply LF_free_app; [reflexivity|].
    apply LF_free_app; [apply stringify_LF_free|].
    destruct r as [|y r']; [reflexivity|].
    apply LF_free_app; [reflexivity | exact IH].
Qed.

End FramingFacts.

(* ================================================================== *)
(** * More about the stream relay and the page that reads it *)
(* ================================================================== *)

Module RelayMore.
Import Js Http StreamRelay JsFacts SplitFacts FramingFacts.

Lemma lines_of_LF_free (chunk : string) :
  Forall (fun line => includes line LF = false) (lines_of chunk).
Proof.
  unfold lines_of.
  assert (H : Forall (fun piece => includes piece LF = false)
                (split LF chunk))
    by (apply split_pieces_clean; discriminate).
  induction H as [|x l Hx Hl IH]; cbn [filter]; [constructor|].
  destruct (negb (trim x =? "")%string); [constructor|]; assumption.
Qed.

Lemma forwarded_single_lines (lines : list string) :
  Forall (fun line => includes line LF = false) lines ->
  exists ps, forwarded lines = map wire ps /\ Framing.single_lines ps.
Proof.
  induction 1 as [|line lines Hl Hls (ps & IH & Hps)].
  - exists []. split; constructor.
  - unfold forwarded in *. cbn [flat_map]. rewrite IH.
    destruct (startsWith line "data: ").
    + exists (slice 6 line :: ps). split; [reflexivity|].
      constructor; [now apply includes_char_slice | exact Hps].
    + now exists ps.
Qed.

Lemma relayed_single_lines (cs : list string) :
  exists ps, relayed cs = map wire ps /\ Framing.single_lines ps.
Proof.
  induction cs as [|chunk cs (ps & IH & Hps)].
  - exists []. split; constructor.
  - unfold relayed in *. cbn [flat_map]. rewrite IH.
    destruct (forwarded_single_lines _ (lines_of_LF_free chunk))
      as (qs & -> & Hqs).
    exists (qs ++ ps)%list. split; [now rewrite map_app|].
    now apply Forall_app.
Qed.

Lemma closing_single_line (e : ReadEnd) :
  exists p, closing_frame e = wire p /\ includes p LF = false.
Proof.
  destruct e; eexists; (split; [reflexivity | apply stringify_LF_free]).
Qed.

(** Everything the relay writes to a POST is a sequence of frames whose
    payloads hold no line feed. *)
Lemma handler_body_frames
    (env : option string) (fetch : FetchReq -> FetchResult)
    (req : Request) :
  method req = "POST" ->
  exists ps,
    body (fst (handler env fetch req)) = map Text (map wire ps)
    /\ Forall (fun p => includes p LF = false) ps.
Proof.
  intros Hpost.
  assert (Hone : forall j res,
             body res = [] ->
             exists ps, body (end_ (write (frame j) res))
                        = map Text (map wire ps)
                        /\ Forall (fun p => includes p LF = false) ps).
  { intros j res Hres. exists [Json.stringify j].
    cbn [body end_ write]. rewrite Hres. split; [reflexivity|].
    constructor; [apply stringify_LF_free | constructor]. }
  destruct (complete req) eqn:Hc.
  - rewrite (StreamRelayFacts.handler_complete env fetch req Hpost Hc).
    cbn [fst].
    destruct (fetch (backend_call env req)) as [|st text stream].
    + now apply Hone.
    + destruct (negb (ok st)).
      * destruct text; now apply Hone.
      * destruct stream as [s|]; [|now apply Hone].
        rewrite StreamRelayFacts.read_loop_spec. cbn [body].
        destruct (relayed_single_lines (chunks s)) as (ps & Hps & Hcl).
        destruct (closing_single_line (ending s)) as (p & Hp & Hpl).
        exists (ps ++ [p])%list. split.
        -- change (body stream_res) with (@nil Part). cbn [app].
           now rewrite Hps, Hp, !map_app.
        -- apply Forall_app. split; [exact Hcl|]. now constructor.
  - destruct (Json.readable (req_body req)) eqn:Hr.
    + rewrite (StreamRelayFacts.handler_incomplete env fetch req Hpost
                 Hr Hc).
      now apply Hone.
    + rewrite (StreamRelayFacts.handler_unreadable env fetch req Hpost Hr).
      exists []. split; [reflexivity | constructor].
Qed.

(** ** Reads that end at a line end *)

Lemma split_LF_closed (s : string) :
  split LF (s ++ LF) = (split LF s ++ [""])%list.
Proof.
  assert (Hsep : LF <> "") by discriminate.
  rewrite (split_app LF s LF Hsep).
  pose proof (split_not_nil LF s Hsep) as Hne.
  pose proof (split_pieces_clean LF s Hsep) as Hcl.
  rewrite (app_removelast_last "" Hne) at 3.
  rewrite (app_removelast_last "" Hne) in Hcl.
  apply Forall_app in Hcl as [_ Hl].
  apply Forall_inv in Hl.
  set (l := last (split LF s) "") in *.
  rewrite (split_some LF (l ++ LF) l "" Hsep (find_sep_char _ l "" Hl)).
  now rewrite <- app_assoc.
Qed.

Lemma split_LF_after_line (s t : string) :
  split LF ((s ++ LF) ++ t) = (split LF s ++ split LF t)%list.
Proof.
  assert (Hsep : LF <> "") by discriminate.
  rewrite (split_app LF (s ++ LF) t Hsep), split_LF_closed.
  rewrite removelast_last, last_last. reflexivity.
Qed.

Lemma lines_of_after_line (s t : string) :
  lines_of ((s ++ LF) ++ t) = (lines_of (s ++ LF) ++ lines_of t)%list.
Proof.
  unfold lines_of. rewrite split_LF_after_line, split_LF_closed.
  rewrite !filter_app. cbn [filter].
  change (negb (trim "" =? "")%string) with false. cbn iota.
  now rewrite app_nil_r.
Qed.

Lemma forwarded_app (a b : list string) :
  forwarded (a ++ b) = (forwarded a ++ forwarded b)%list.
Proof. unfold forwarded. apply flat_map_app. Qed.

Lemma relayed_merge (c : string) (cs : list string) :
  Framing.closed c ->
  relayed (c :: cs) = relayed ((c ++ hd "" cs) :: tl cs).
Proof.
  intros [-> | [s ->]]; destruct cs as [|c2 cs]; unfold relayed;
    cbn [flat_map hd tl app].
  - reflexivity.
  - reflexivity.
  - now rewrite append_nil_r.
  - now rewrite lines_of_after_line, forwarded_app, <- app_assoc.
Qed.

Lemma relayed_closed (init : list string) (c : string) :
  Forall Framing.closed init ->
  relayed (init ++ [c]) = relayed [concat_all (init ++ [c])].
Proof.
  induction init as [|a init IH]; intros H.
  - cbn [app concat_all fold_right]. now rewrite append_nil_r.
  - apply Forall_cons_iff in H as [Ha Hi]. specialize (IH Hi).
    cbn [app concat_all fold_right].
    fold (concat_all (init ++ [c])).
    change (relayed (a :: init ++ [c]))
      with (forwarded (lines_of a) ++ relayed (init ++ [c]))%list.
    rewrite IH.
    change (forwarded (lines_of a) ++ relayed [concat_all (init ++ [c])])%list
      with (relayed [a; concat_all (init ++ [c])]).
    now rewrite (relayed_merge a [concat_all (init ++ [c])] Ha).
Qed.

(** The relay is safe against reads that end at line ends: when every
    read except perhaps the last is empty or ends with a line feed, the
    relay answers as it does when the whole text arrives in one read. *)
Theorem relay_safe_on_closed_reads
    (init : list string) (c : string) (e : ReadEnd) (res : Res) :
  Forall Framing.closed init ->
  read_loop (init ++ [c]) e res
  = read_loop [concat_all (init ++ [c])] e res.
Proof.
  intros H. rewrite !StreamRelayFacts.read_loop_spec.
  now rewrite (relayed_closed init c H).
Qed.

Lemma relay_safe_on_closed_reads_witness :
  read_loop [Scenario.frame_hello; Scenario.frame_world] Done stream_res
  = read_loop [Scenario.two_frames] Done stream_res.
Proof.
  refine (relay_safe_on_closed_reads [Scenario.frame_hello]
            Scenario.frame_world Done stream_res _).
  constructor; [|constructor]. right.
  exists ("data: "
          ++ Json.stringify (Json.Obj [("chunk", Json.Str "Hello ")])
          ++ LF).
  reflexivity.
Defined.

End RelayMore.

Module ClientMore.
Import Js Http StreamClient JsFacts SplitFacts FramingFacts.

Lemma blank_line : LF ++ LF <> "".
Proof. discriminate. Qed.

Lemma find_sep_blank (q rest : string) :
  includes q LF = false ->
  find_sep (LF ++ LF) (q ++ LF ++ LF ++ rest) = Some (q, rest).
Proof.
  induction q as [|c q IH]; intros H.
  - reflexivity.
  - change (String c q ++ LF ++ LF ++ rest)
      with (String c (q ++ LF ++ LF ++ rest)).
    cbn [find_sep].
    assert (E : startsWith (String c (q ++ LF ++ LF ++ rest)) (LF ++ LF)
                = false).
    { cbn [includes] in H. apply orb_false_iff in H as [H _].
      unfold LF in *. cbn [startsWith append] in *.
      rewrite andb_true_r in H. now rewrite H. }
    rewrite E, IH by (now apply includes_cons in H). reflexivity.
Qed.

Lemma split_blank_block (q rest : string) :
  includes q LF = false ->
  split (LF ++ LF) (q ++ LF ++ LF ++ rest) = q :: split (LF ++ LF) rest.
Proof.
  intros H.
  exact (split_some _ _ _ _ blank_line (find_sep_blank q rest H)).
Qed.

(** Frames with single-line payloads, one after the other, are cut at
    blank lines into exactly those frames, and nothing is left over. *)
Lemma split_frames (ps : list string) :
  Framing.single_lines ps ->
  split (LF ++ LF) (concat_all (map StreamRelay.wire ps))
  = (map (fun p => ("data: " ++ p)%string) ps ++ [""])%list.
Proof.
  induction 1 as [|p ps Hp Hps IH]; [reflexivity|].
  cbn [map concat_all fold_right app].
  fold (concat_all (map StreamRelay.wire ps)).
  unfold StreamRelay.wire at 1. rewrite !append_assoc.
  change ("data: " ++ p ++ LF ++ LF ++ concat_all (map StreamRelay.wire ps))
    with (("data: " ++ p) ++ LF ++ LF
          ++ concat_all (map StreamRelay.wire ps)).
  rewrite split_blank_block
    by now apply StreamRelayFacts.event_line_no_LF.
  now rewrite IH.
Qed.

Section Decoder.
Variable JSON_parse : string -> option Json.t.
Variable to_text : Json.value -> string.

(** The relay and the page together.  Whatever the upstream sends and
    however it fails, what the relay writes for a POST it answers
    itself is a sequence of frames whose payloads hold no line feed,
    so that no frame contains a frame boundary.  The page decodes
    each read on its own; whenever the texts it decodes make up,
    one after the other, the text the relay wrote -- the network may
    cut anywhere but inside a character of several bytes -- the page
    handles exactly those frames, one message for each, in the order
    written: its final state is that of the message loop run over
    them. *)
Theorem page_reads_what_relay_wrote
    (env : option string)
    (fetch : StreamRelay.FetchReq -> StreamRelay.FetchResult)
    (req : StreamRelay.Request) (reads : list string) (st : Ui) :
  StreamRelay.method req = "POST" ->
  threw (fst (StreamRelay.handler env fetch req)) = false ->
  concat_all reads
  = concat_all (texts (body (fst (StreamRelay.handler env fetch req)))) ->
  exists ps,
    texts (body (fst (StreamRelay.handler env fetch req)))
    = map (fun p => "data: " ++ p ++ LF ++ LF) ps
    /\ Forall (fun p => includes p LF = false) ps
    /\ decode JSON_parse to_text reads st
       = fst (for_messages JSON_parse to_text
                (map (fun p => "data: " ++ p) ps) st).
Proof.
  intros Hpost _ Hcut.
  destruct (RelayMore.handler_body_frames env fetch req
              Hpost) as (ps & Hb & Hps).
  exists ps. rewrite Hb, texts_map_Text in *. split; [reflexivity|].
  split; [exact Hps|]. unfold decode.
  assert (Hone : read_loop JSON_parse to_text [concat_all reads] "" st
                 = fst (for_messages JSON_parse to_text
                          (map (fun p => "data: " ++ p) ps) st)).
  { cbn [read_loop].
    change ("" ++ concat_all reads) with (concat_all reads).
    rewrite Hcut, (split_frames ps Hps).
    unfold pop. rewrite removelast_last.
    now destruct (for_messages JSON_parse to_text _ st) as [st' [|]]. }
  destruct reads as [|c reads].
  - exact Hone.
  - now rewrite StreamClientFacts.read_loop_concat.
Qed.

(** Frames with single-line payloads at the head of a text are cut
    off it one by one. *)
Lemma split_frames_then (ps : list string) (rest : string) :
  Framing.single_lines ps ->
  split (LF ++ LF) (concat_all (map StreamRelay.wire ps) ++ rest)
  = (map (fun p => ("data: " ++ p)%string) ps
     ++ split (LF ++ LF) rest)%list.
Proof.
  induction 1 as [|p ps Hp Hps IH]; [reflexivity|].
  cbn [map concat_all fold_right app].
  fold (concat_all (map StreamRelay.wire ps)).
  unfold StreamRelay.wire at 1. rewrite !append_assoc.
  change ("data: " ++ p ++ LF ++ LF
          ++ concat_all (map StreamRelay.wire ps) ++ rest)
    with (("data: " ++ p) ++ LF ++ LF
          ++ concat_all (map StreamRelay.wire ps) ++ rest).
  rewrite split_blank_block
    by now apply StreamRelayFacts.event_line_no_LF.
  now rewrite IH.
Qed.

(** An error frame ends the run, wherever it stands in the stream.
    Take any frames with single-line payloads that the page handles
    without stopping, then a frame whose payload parses to an object
    with a truthy [error], then any text at all.  However that text
    is cut into reads, the page ends in the state the frames before
    the error frame left, with that error shown and the run marked
    as over: nothing that follows the error frame, in the same read
    or in later ones, changes the state. *)
Theorem error_frame_ends_the_run
    (ps : list string) (p tail : string) (reads : list string)
    (data : Json.t) (st st1 : Ui) :
  Forall (fun q => includes q LF = false) ps ->
  includes p LF = false ->
  for_messages JSON_parse to_text (map (fun q => "data: " ++ q) ps) st
  = (st1, false) ->
  JSON_parse p = Some data ->
  Json.truthy (field "error" data) = true ->
  concat_all reads
  = concat_all (map (fun q => "data: " ++ q ++ LF ++ LF) ps)
    ++ ("data: " ++ p ++ LF ++ LF) ++ tail ->
  decode JSON_parse to_text reads st
  = {| content := content st1; imagePrompts := imagePrompts st1;
       error := field "error" data;
       streaming := false; loading := false |}.
Proof.
  intros Hps Hp Hbefore Hparse Herr Hcut.
  assert (Hone : decode JSON_parse to_text reads st
                 = decode JSON_parse to_text [concat_all reads] st).
  { unfold decode. destruct reads as [|c reads]; [reflexivity|].
    apply StreamClientFacts.read_loop_concat. }
  rewrite Hone. unfold decode. cbn [read_loop].
  change ("" ++ concat_all reads) with (concat_all reads).
  rewrite Hcut.
  change (map (fun q => "data: " ++ q ++ LF ++ LF) ps)
    with (map StreamRelay.wire ps).
  rewrite (split_frames_then ps _ Hps).
  rewrite !append_assoc.
  change ("data: " ++ p ++ LF ++ LF ++ tail)
    with (("data: " ++ p) ++ LF ++ LF ++ tail).
  rewrite split_blank_block
    by now apply StreamRelayFacts.event_line_no_LF.
  unfold pop.
  pose proof (split_not_nil (LF ++ LF) tail blank_line) as Hne.
  assert (Hne' : ("data: " ++ p) :: split (LF ++ LF) tail <> [])
    by discriminate.
  rewrite (removelast_app _ Hne').
  rewrite StreamClientFacts.for_messages_app, Hbefore.
  destruct (split (LF ++ LF) tail) as [|x l] eqn:E; [congruence|].
  cbn [removelast]. cbn [for_messages].
  unfold on_message at 1.
  rewrite (startsWith_app "data: " p).
  change 6 with (String.length "data: "). rewrite slice_app, Hparse.
  destruct data; try discriminate Herr.
  now rewrite Herr.
Qed.

(** A frame that cannot be used is skipped and the run goes on: a
    message that does not start with [data: ], or whose payload does
    not parse, or parses to [null], leaves the outcome of the message
    loop as it is without that message. *)
Theorem unusable_message_is_skipped
    (before after : list string) (m : string) (st : Ui) :
  startsWith m "data: " = false
  \/ JSON_parse (slice 6 m) = None
  \/ JSON_parse (slice 6 m) = Some Json.Null ->
  for_messages JSON_parse to_text (before ++ m :: after) st
  = for_messages JSON_parse to_text (before ++ after) st.
Proof.
  intros H. rewrite !StreamClientFacts.for_messages_app.
  destruct (for_messages JSON_parse to_text before st) as [st' [|]];
    [reflexivity|].
  cbn [for_messages]. unfold on_message at 1.
  destruct (startsWith m "data: ") eqn:E.
  - destruct H as [H|[H|H]]; [discriminate | rewrite H .. ];
      reflexivity.
  - reflexivity.
Qed.
End Decoder.

Lemma append_inv_tail (p q t : string) : p ++ t = q ++ t -> p = q.
Proof.
  revert q. induction p as [|a p IH]; intros [|b q] H.
  - reflexivity.
  - exfalso. apply (f_equal String.length) in H.
    cbn [append String.length] in H. rewrite append_length in H. lia.
  - exfalso. apply (f_equal String.length) in H.
    cbn [append String.length] in H. rewrite append_length in H. lia.
  - cbn [append] in H. injection H as -> H. f_equal. now apply IH.
Qed.

(** The theorem at the session of two chunks, with the relay's output
    cut inside the second frame: the page shows both chunks and marks
    the run as over. *)
Lemma page_reads_what_relay_wrote_witness :
  Scenario.relay_output [Scenario.two_frames]
  = ["data: {" ++ DQ ++ "chunk" ++ DQ ++ ":" ++ DQ ++ "Hello " ++ DQ
     ++ "}" ++ LF ++ LF;
     "data: {" ++ DQ ++ "chunk" ++ DQ ++ ":" ++ DQ ++ "world" ++ DQ
     ++ "}" ++ LF ++ LF;
     "data: {" ++ DQ ++ "finished" ++ DQ ++ ":true}" ++ LF ++ LF]
  /\ decode Sample.parse_session Sample.text_of
       (Scenario.cut 30
          (concat_all (Scenario.relay_output [Scenario.two_frames])))
       Sample.ui0
     = {| content := "Hello world"; imagePrompts := Json.Arr [];
          error := None; streaming := false; loading := false |}.
Proof.
  split; [reflexivity|].
  destruct (page_reads_what_relay_wrote Sample.parse_session
              Sample.text_of None
              (Scenario.upstream [Scenario.two_frames] StreamRelay.Done)
              Scenario.stream_req
              (Scenario.cut 30
                 (concat_all (Scenario.relay_output [Scenario.two_frames])))
              Sample.ui0 eq_refl eq_refl eq_refl) as (ps & H1 & _ & H2).
  rewrite H2.
  destruct ps as [|a [|b [|c [|d ps]]]]; try discriminate H1.
  injection H1 as Ha Hb Hc.
  symmetry in Ha, Hb, Hc.
  apply (append_inv_tail a
           ("{" ++ DQ ++ "chunk" ++ DQ ++ ":" ++ DQ ++ "Hello " ++ DQ ++ "}")
           (LF ++ LF)) in Ha.
  apply (append_inv_tail b
           ("{" ++ DQ ++ "chunk" ++ DQ ++ ":" ++ DQ ++ "world" ++ DQ ++ "}")
           (LF ++ LF)) in Hb.
  apply (append_inv_tail c ("{" ++ DQ ++ "finished" ++ DQ ++ ":true}")
           (LF ++ LF)) in Hc.
  subst a b c. reflexivity.
Defined.

(** The theorem at a stream of one chunk, an error frame and more
    text, cut inside the error frame. *)
Lemma error_frame_ends_the_run_witness :
  decode Sample.parse Sample.text_of
    ["data: C" ++ LF ++ LF ++ "data"; ": E" ++ LF ++ LF ++ "data: C";
     LF ++ LF]
    Sample.ui0
  = {| content := "c"; imagePrompts := Json.Arr [];
       error := Some (Json.Str "boom");
       streaming := false; loading := false |}.
Proof.
  refine (error_frame_ends_the_run Sample.parse Sample.text_of
            ["C"] "E" ("data: C" ++ LF ++ LF)
            ["data: C" ++ LF ++ LF ++ "data"; ": E" ++ LF ++ LF ++ "data: C";
             LF ++ LF]
            (Json.Obj [("error", Json.Str "boom")]) Sample.ui0
            {| content := "c"; imagePrompts := Json.Arr [];
               error := None; streaming := true; loading := true |}
            _ eq_refl eq_refl eq_refl eq_refl eq_refl).
  repeat constructor.
Defined.

Lemma unusable_message_is_skipped_witness :
  for_messages Sample.parse Sample.text_of
    ["data: C"; ": keep-alive"; "data: C"] Sample.ui0
  = for_messages Sample.parse Sample.text_of
      ["data: C"; "data: C"] Sample.ui0.
Proof.
  exact (unusable_message_is_skipped Sample.parse Sample.text_of
           ["data: C"] ["data: C"] ": keep-alive" Sample.ui0
           (or_introl eq_refl)).
Defined.

End ClientMore.

(* ================================================================== *)
(** * More about the endpoint fallback *)
(* ================================================================== *)

Module SearchMore.
Import Js Http Search.

Section Resolve.
Variable fetch : nat -> FetchReq -> FetchResult.
Variable q : Json.value.
Variable rc : Json.t.

(** Whatever the server does, the calls of the loop are the calls
    for a first part of the pairs, in order. *)
Lemma try_urls_prefix (urls : list string) :
  forall (calls : list FetchReq) (lastError : option string),
  exists k,
    snd (try_urls fetch q rc urls calls lastError)
    = (calls ++ calls_of q rc (firstn k (candidates urls)))%list.
Proof.
  induction urls as [|u us IH]; intros calls lastError.
  - exists 0. cbn. now rewrite app_nil_r.
  - cbn [try_urls].
    destruct (payload (fetch (List.length calls) (call q rc u Tool))).
    + exists 1. reflexivity.
    + assert (Hnext : forall le,
                 exists k,
                   snd (try_urls fetch q rc us
                          ((calls ++ [call q rc u Tool])
                           ++ [call q rc u Prompt]) le)
                   = (calls
                      ++ calls_of q rc
                           (firstn k (candidates (u :: us))))%list).
      { intros le. destruct (IH ((calls ++ [call q rc u Tool])
                                 ++ [call q rc u Prompt])%list le)
          as [k Hk].
        exists (S (S k)). rewrite Hk.
        cbn [candidates flat_map app firstn calls_of map fst snd].
        now rewrite <- !app_assoc. }
      destruct (fetch _ (call q rc u Prompt)) as [m|st [d|m]].
      * apply Hnext.
      * destruct (ok st); [|apply Hnext].
        exists 2. cbn [snd]. cbn. now rewrite <- app_assoc.
      * destruct (ok st); apply Hnext.
Qed.

End Resolve.

Lemma urlsToTry_length (env : option string) :
  List.length (urlsToTry env) <= 4.
Proof.
  unfold urlsToTry. cbn [filter].
  destruct (nonempty env); [destruct env|]; cbn; lia.
Qed.

Lemma candidates_length (urls : list string) :
  List.length (candidates urls) = 2 * List.length urls.
Proof.
  induction urls as [|u us IH]; [reflexivity|].
  cbn [candidates flat_map app List.length]. fold (candidates us).
  rewrite IH. cbn [List.length]. lia.
Qed.

(** The handler never calls out of turn: whatever the request and
    whatever the servers answer, its calls are the calls for a first
    part of the list of pairs (address, variant), in the order of the
    list and one call for each, eight calls at most. *)
Theorem calls_follow_the_candidates
    (env : option string) (fetch : nat -> FetchReq -> FetchResult)
    (req : Request) :
  exists k,
    snd (handler env fetch req)
    = calls_of (query req) (recency_of req)
        (firstn k (candidates (urlsToTry env)))
    /\ List.length (snd (handler env fetch req)) <= 8.
Proof.
  assert (Hlen : forall k,
             List.length (calls_of (query req) (recency_of req)
                            (firstn k (candidates (urlsToTry env)))) <= 8).
  { intros k. unfold calls_of. rewrite length_map, length_firstn.
    pose proof (urlsToTry_length env).
    pose proof (candidates_length (urlsToTry env)). lia. }
  unfold handler.
  destruct (negb (method req =? "POST")%string).
  { exists 0. split; [reflexivity | cbn; lia]. }
  destruct (negb (Json.truthy (query req))).
  { exists 0. split; [reflexivity | cbn; lia]. }
  destruct (try_urls_prefix fetch (query req) (recency_of req)
              (urlsToTry env) [] None) as [k Hk].
  cbn [app] in Hk. exists k.
  destruct (try_urls fetch (query req) (recency_of req) (urlsToTry env)
              [] None) as [[d|le] calls];
    cbn [snd] in *; subst calls; (split; [reflexivity | apply Hlen]).
Qed.



End SearchMore.

(* ================================================================== *)
(** * The comparison route *)
(* ================================================================== *)

Module ResearchFacts.
Import Js Http Research.

Example pretty_nested :
  pretty "" (Json.Obj [("a", Json.Num 1);
                       ("b", Json.Arr [Json.Bool true; Json.Arr []])])
  = "{" ++ LF
    ++ "  " ++ DQ ++ "a" ++ DQ ++ ": 1," ++ LF
    ++ "  " ++ DQ ++ "b" ++ DQ ++ ": [" ++ LF
    ++ "    true," ++ LF
    ++ "    []" ++ LF
    ++ "  ]" ++ LF
    ++ "}".
Proof. reflexivity. Qed.

Example search_query_of_request :
  searchQuery Sample.research_req
  = "Compare Pixel 8 vs iPhone 15 focusing on specs, features, and price for someone who is ready to buy now".
Proof. reflexivity. Qed.

Lemma titled_has_heading (topic_text text : string) :
  includes (titled topic_text text) "#" = true.
Proof. reflexivity. Qed.

Lemma markdown_has_heading (topic_text : string) (data : Json.t) :
  includes (markdownContent topic_text data) "#" = true.
Proof.
  unfold markdownContent.
  destruct (text_field (StreamClient.field "answer" data)) as [answer|].
  - destruct (includes answer "#") eqn:E; cbn [negb];
      [exact E | apply titled_has_heading].
  - destruct (text_field (StreamClient.field "text" data));
      apply titled_has_heading.
Qed.

Lemma reference_truthy (ref x : Json.t) :
  reference ref = Some x -> Json.truthy (Some x) = true.
Proof.
  assert (Hd : forall title,
             Json.truthy
               (Some (Coerce.or_value title (Json.Str "Unknown source")))
             = true)
    by (intros title; now apply GenerateContentFacts.or_value_truthy).
  unfold reference. destruct ref; try discriminate;
    (destruct (StreamClient.field "url" _) as [u|];
     [destruct (Json.truthy (Some u))|]);
    intros H; injection H as <-; try apply Hd; reflexivity.
Qed.

Lemma references_of_truthy (refs xs : list Json.t) :
  references_of refs = Some xs ->
  Forall (fun x => Json.truthy (Some x) = true) xs.
Proof.
  revert xs; induction refs as [|ref refs IH]; intros xs H.
  - injection H as <-. constructor.
  - cbn [references_of] in H.
    destruct (reference ref) as [x|] eqn:R; [|discriminate].
    destruct (references_of refs) as [ys|]; [|discriminate].
    injection H as <-. constructor;
      [exact (reference_truthy _ _ R) | now apply IH].
Qed.

Lemma live_shape (topic_text : string) (data answer : Json.t) :
  live topic_text data = Some answer ->
  exists refs,
    references data = Some refs
    /\ answer = Json.Obj [("content",
                           Json.Str (markdownContent topic_text data));
                          ("references", Json.Arr refs)].
Proof.
  unfold live. intros H.
  destruct (references data) as [refs|].
  - exists refs. split; [reflexivity|]. destruct data; congruence.
  - destruct data; discriminate.
Qed.

Lemma markdown_cases (topic_text : string) (data : Json.t) :
  (exists s,
      StreamClient.field "answer" data = Some (Json.Str s)
      /\ includes s "#" = true
      /\ markdownContent topic_text data = s)
  \/ (exists text,
         markdownContent topic_text data
         = "# Product Comparison: " ++ topic_text ++ LF ++ LF ++ text).
Proof.
  unfold markdownContent.
  destruct (StreamClient.field "answer" data) as [[| | |s| |]|];
    cbn [text_field];
    try (right; destruct (text_field (StreamClient.field "text" data));
         eexists; reflexivity).
  destruct (s =? "")%string.
  - right. destruct (text_field (StreamClient.field "text" data));
      eexists; reflexivity.
  - destruct (includes s "#") eqn:E; cbn [negb].
    + left. exists s. now repeat split.
    + right. eexists; reflexivity.
Qed.

(** The content of a live answer is one of two things.  Either it
    begins with the line [# Product Comparison: ] and the topic,
    followed by an empty line; or it is the answer text of the server
    as it came, which happens only when that text holds a [#]
    somewhere -- whether or not that [#] begins a heading.  The
    references are all truthy: a reference without address or title
    reads [Unknown source]. *)
Theorem live_answer_is_presentable
    (topic_text : string) (data answer : Json.t) :
  live topic_text data = Some answer ->
  exists content refs,
    answer = Json.Obj [("content", Json.Str content);
                       ("references", Json.Arr refs)]
    /\ ((exists text,
            content
            = "# Product Comparison: " ++ topic_text ++ LF ++ LF ++ text)
        \/ (StreamClient.field "answer" data = Some (Json.Str content)
            /\ includes content "#" = true))
    /\ Forall (fun x => Json.truthy (Some x) = true) refs.
Proof.
  intros H. destruct (live_shape _ _ _ H) as (refs & R & ->).
  eexists _, _. split; [reflexivity|].
  split.
  - destruct (markdown_cases topic_text data)
      as [(s & Ha & Hs & ->) | (text & ->)].
    + right. now split.
    + left. now exists text.
  - unfold references in R.
    destruct (StreamClient.field "references" data) as [[| | | |l|]|];
      try discriminate R; try (injection R as <-; constructor).
    exact (references_of_truthy _ _ R).
Qed.

(** The theorem at two answers of the server: plain text is put under
    the heading; a text with a [#] in it is passed on as it is, heading
    or not. *)
Lemma live_answer_is_presentable_witness :
  live "Pixel 8"
    (Json.Obj
       [("answer", Json.Str "Both are fine.");
        ("references",
         Json.Arr [Json.Obj [("url", Json.Str "https://a.example")];
                   Json.Str "seen elsewhere"])])
  = Some
      (Json.Obj
         [("content",
           Json.Str ("# Product Comparison: Pixel 8" ++ LF ++ LF
                     ++ "Both are fine."));
          ("references",
           Json.Arr [Json.Str "[https://a.example](https://a.example)";
                     Json.Str "Unknown source"])])
  /\ exists refs,
       live "C# books" (Json.Obj [("answer", Json.Str "Use C# for this")])
       = Some (Json.Obj [("content", Json.Str "Use C# for this");
                         ("references", Json.Arr refs)]).
Proof.
  split; [reflexivity|].
  destruct (live_answer_is_presentable "C# books"
              (Json.Obj [("answer", Json.Str "Use C# for this")])
              _ eq_refl) as (c & refs & H1 & [(text & Hc) | (Ha & _)] & _).
  - exfalso. injection H1 as H1 _. rewrite Hc in H1. discriminate H1.
  - exists refs. injection Ha as <-. injection H1 as <-. reflexivity.
Defined.



End ResearchFacts.

(* ================================================================== *)
(** * Lines the relay does not forward *)
(* ================================================================== *)

Module RelayLines.
Import Js Http StreamRelay JsFacts SplitFacts RelayMore.

Lemma other_line_not_forwarded (l : string) :
  includes l LF = false ->
  startsWith l "data: " = false ->
  forwarded (lines_of (l ++ LF)) = [].
Proof.
  intros Hl Hd. unfold lines_of. rewrite split_LF_closed.
  rewrite (split_none LF l) by (discriminate || now apply find_sep_none).
  cbn [app filter].
  change (negb (trim "" =? "")%string) with false. cbn iota.
  destruct (negb (trim l =? "")%string); [|reflexivity].
  unfold forwarded. cbn [flat_map]. now rewrite Hd.
Qed.

Lemma forwarded_without_line (a l b : string) :
  Framing.closed a ->
  includes l LF = false ->
  startsWith l "data: " = false ->
  forwarded (lines_of (a ++ (l ++ LF) ++ b)) = forwarded (lines_of (a ++ b)).
Proof.
  intros [-> | [s ->]] Hl Hd.
  - cbn [append]. rewrite lines_of_after_line, forwarded_app.
    now rewrite (other_line_not_forwarded l Hl Hd).
  - rewrite !lines_of_after_line, !forwarded_app.
    now rewrite (other_line_not_forwarded l Hl Hd).
Qed.

(** What is not an event line never reaches the client: a whole line of
    the upstream that does not start with [data: ] (a comment, an event
    name, a blank line) can be taken out of a read without changing the
    response. *)
Theorem other_lines_are_dropped
    (a l b : string) (rest : list string) (e : ReadEnd) (res : Res) :
  Framing.closed a ->
  includes l LF = false ->
  startsWith l "data: " = false ->
  read_loop ((a ++ (l ++ LF) ++ b) :: rest) e res
  = read_loop ((a ++ b) :: rest) e res.
Proof.
  intros Ha Hl Hd. rewrite !StreamRelayFacts.read_loop_spec.
  unfold relayed. cbn [flat_map].
  now rewrite (forwarded_without_line a l b Ha Hl Hd).
Qed.

Lemma other_lines_are_dropped_witness :
  read_loop [Scenario.frame_hello ++ (": keep-alive" ++ LF)
             ++ Scenario.frame_world] Done stream_res
  = read_loop [Scenario.frame_hello ++ Scenario.frame_world] Done
      stream_res.
Proof.
  refine (other_lines_are_dropped Scenario.frame_hello ": keep-alive"
            Scenario.frame_world [] Done stream_res _ eq_refl eq_refl).
  right.
  exists ("data: "
          ++ Json.stringify (Json.Obj [("chunk", Json.Str "Hello ")])
          ++ LF).
  reflexivity.
Defined.

End RelayLines.
